(** * Claim recovery workflow: triggers of the appeals, recovery and
      knowledge-graph migrations, embedded as state-passing functions

    The program is a PostgreSQL schema.  Tables are finite maps from the
    primary key to a row record, a statement is a function from the
    database to either a new database or the SQL error that aborts it, and
    each trigger function is a definition of the same name.

    Fixed-point columns hold their unscaled integer: a [decimal(12,2)]
    amount is a number of hundredths (paise), the [decimal(5,2)] fee
    percentage a number of hundredths of a percent, the [decimal(5,4)]
    success rate a number of ten-thousandths.  Arithmetic inside an
    expression is done on rationals and rounded where the source rounds:
    at [ROUND(_, n)] and when a value is stored into a column. *)

From Stdlib Require Import ZArith QArith Lia.
From stdpp Require Import gmap strings pretty list fin_maps.

Local Open Scope Z_scope.

(** ** SQL errors and the statement monad *)

Inductive sql_error : Type :=
  | unique_violation
  | foreign_key_violation
  | not_null_violation
  | check_violation (constraint : string)
  | numeric_value_out_of_range
  | integer_out_of_range
  | division_by_zero.

Inductive result (A : Type) : Type :=
  | Ok (a : A)
  | Err (e : sql_error).
Arguments Ok {A} a.
Arguments Err {A} e.

Definition rbind {A B} (r : result A) (k : A -> result B) : result B :=
  match r with
  | Ok a => k a
  | Err e => Err e
  end.

Notation "x <- r ;; k" := (rbind r (fun x => k))
  (at level 100, r at next level, right associativity).

Definition check (b : bool) (e : sql_error) : result unit :=
  if b then Ok tt else Err e.

Definition is_ok {A} (r : result A) : bool :=
  match r with Ok _ => true | Err _ => false end.

(** ** numeric arithmetic *)

Module Numeric.

(** Quotient of [n] by [d > 0] rounded to the nearest integer, ties away
    from zero: the magnitude gets half a unit added and is truncated, the
    sign is put back (PostgreSQL's rounding of [numeric]). *)
Definition round_div (n d : Z) : Z :=
  Z.sgn n * ((2 * Z.abs n + d) / (2 * d)).

(** [ROUND(q, s)], as the integer number of [10^-s] units. *)
Definition ROUND (q : Q) (s : nat) : Z :=
  round_div (Qnum q * 10 ^ Z.of_nat s) (Z.pos (Qden q)).

(** The value of a column of scale [s] holding the unscaled integer [v]. *)
Definition of_scaled (s : nat) (v : Z) : Q :=
  Qmake v (Z.to_pos (10 ^ Z.of_nat s)).

(** [x::decimal] for an integer [x]. *)
Definition of_int (x : Z) : Q := inject_Z x.

(** Assignment to a [decimal(p, s)] column: round to scale [s], then the
    magnitude must fit [p] digits. *)
Definition store (p s : nat) (q : Q) : result Z :=
  let v := ROUND q s in
  _ <- check (Z.abs v <? 10 ^ Z.of_nat p) numeric_value_out_of_range ;;
  Ok v.

(** A value that already has scale [s] only has its range checked. *)
Definition fits (p : nat) (v : Z) : bool := Z.abs v <? 10 ^ Z.of_nat p.

(** [a / b] on numerics; the quotient is taken exactly and rounded where
    it is stored. *)
Definition div (a b : Q) : result Q :=
  if Qeq_bool b 0 then Err division_by_zero else Ok (a / b)%Q.

(** [int] columns are 32-bit; arithmetic beyond the range raises. *)
Definition int4 (x : Z) : result Z :=
  _ <- check ((-2147483648 <=? x) && (x <=? 2147483647)) integer_out_of_range ;;
  Ok x.

End Numeric.

(** What "round half away from zero" means for the quotient [n / d]:
    the result is within half a unit, and a tie is resolved to the
    larger magnitude. *)
Definition nearest_half_away (n d r : Z) : Prop :=
  2 * Z.abs (n - r * d) <= d /\
  (2 * Z.abs (n - r * d) = d -> Z.abs n < Z.abs (r * d)).

(** ** Schema

    A row carries the columns that the triggers and the constraints below
    read or write.  A column declared with a [DEFAULT] or [NOT NULL] holds
    a value; a nullable column without default is an [option]. *)

Definition uuid := N.
Definition timestamp := Z.
Definition date := Z.

(** [ts::date], timestamps counted in seconds and dates in days. *)
Definition date_of (ts : timestamp) : date := ts / 86400.

Inductive claim_status_t : Type :=
  | cs_submitted | cs_under_review | cs_pending_documents | cs_approved
  | cs_partially_approved | cs_denied | cs_appealed | cs_recovered
  | cs_written_off.

Inductive appeal_status_t : Type :=
  | draft | submitted | under_review | additional_info_requested
  | accepted | partially_accepted | rejected | withdrawn.

Inductive appeal_type_t : Type := reconsideration | review | grievance.
Inductive generated_by_t : Type := ai_agent | human | hybrid.
Inductive payment_status_t : Type := pending | processed | failed | disputed.
Inductive recovery_method_t : Type := direct_payment | adjustment | settlement.

Inductive pattern_type_t : Type :=
  | denial_reason_pattern | approval_criteria | documentation_requirement
  | processing_time_pattern | appeal_success_factor | contact_escalation_path
  | coding_requirement | seasonal_pattern.

Inductive notification_type_t : Type :=
  | nt_appeal_submitted | nt_appeal_accepted | nt_appeal_rejected
  | nt_action_required.
Inductive severity_t : Type := sev_info | sev_warning | sev_error | sev_success.

#[global] Instance claim_status_eq_dec : EqDecision claim_status_t.
Proof. solve_decision. Defined.
#[global] Instance appeal_status_eq_dec : EqDecision appeal_status_t.
Proof. solve_decision. Defined.
#[global] Instance payment_status_eq_dec : EqDecision payment_status_t.
Proof. solve_decision. Defined.
#[global] Instance pattern_type_eq_dec : EqDecision pattern_type_t.
Proof. solve_decision. Defined.

Definition pattern_type_code (t : pattern_type_t) : nat :=
  match t with
  | denial_reason_pattern => 0 | approval_criteria => 1
  | documentation_requirement => 2 | processing_time_pattern => 3
  | appeal_success_factor => 4 | contact_escalation_path => 5
  | coding_requirement => 6 | seasonal_pattern => 7
  end%nat.

Definition pattern_type_of_code (n : nat) : pattern_type_t :=
  match n with
  | 0 => denial_reason_pattern | 1 => approval_criteria
  | 2 => documentation_requirement | 3 => processing_time_pattern
  | 4 => appeal_success_factor | 5 => contact_escalation_path
  | 6 => coding_requirement | _ => seasonal_pattern
  end%nat.

#[global] Instance pattern_type_countable : Countable pattern_type_t.
Proof.
  apply (inj_countable' pattern_type_code pattern_type_of_code).
  intros []; reflexivity.
Defined.

(** hospitals *)
Record hospital : Type := {
  recovery_fee_percentage : Z;
}.

(** claims *)
Record claim : Type := {
  claim_hospital_id : uuid;
  payer_id : uuid;
  claimed_amount : Z;
  approved_amount : option Z;
  paid_amount : Z;
  claim_status : claim_status_t;
  last_status_update : timestamp;
  claim_updated_at : timestamp;
}.


(** claim_denials *)
Record claim_denial : Type := {
  denial_claim_id : uuid;
  denial_amount : Z;
  denial_date : date;
}.

(** appeals *)
Record appeal : Type := {
  appeal_claim_id : uuid;
  denial_id : option uuid;
  appeal_level : Z;
  appeal_type : appeal_type_t;
  generated_by : generated_by_t;
  appeal_status : appeal_status_t;
  submitted_date : option timestamp;
  response_due_date : option date;
  response_received_date : option date;
  outcome_amount : option Z;
  appeal_updated_at : timestamp;
}.

(** recovery_transactions.  The fee columns are [NOT NULL] in the table
    but may be absent in the row handed to the [BEFORE INSERT] trigger. *)
Record recovery_transaction : Type := {
  rt_hospital_id : uuid;
  rt_claim_id : uuid;
  rt_appeal_id : option uuid;
  recovery_amount : Z;
  recovery_date : date;
  recovery_method : recovery_method_t;
  agent_fee_percentage : option Z;
  agent_fee_amount : option Z;
  hospital_amount : option Z;
  payment_status : payment_status_t;
  payment_date : option date;
  rt_updated_at : timestamp;
}.

(** payer_knowledge_graph; the row is found by its unique key
    [(payer_id, pattern_type, pattern_key)]. *)
Record pattern_value_t : Type := {
  pv_appeal_type : appeal_type_t;
  pv_generated_by : generated_by_t;
  pv_latest_outcome : appeal_status_t;
}.

Record knowledge_pattern : Type := {
  pattern_value : pattern_value_t;
  occurrence_count : Z;
  success_count : Z;
  avg_recovery_amount : option Z;
  total_recovery_amount : Z;
  confidence_level : Z;
  first_observed_at : timestamp;
  last_observed_at : timestamp;
  kg_updated_at : timestamp;
}.

Definition pattern_id : Type := uuid * pattern_type_t * string.

(** notifications *)
Record notification : Type := {
  n_hospital_id : option uuid;
  n_type : notification_type_t;
  n_severity : severity_t;
  n_appeal_id : uuid;
  n_claim_id : uuid;
}.

Record db : Type := {
  hospitals : gmap uuid hospital;
  claims : gmap uuid claim;
  claim_denials : gmap uuid claim_denial;
  appeals : gmap uuid appeal;
  recovery_transactions : gmap uuid recovery_transaction;
  payer_knowledge_graph : gmap pattern_id knowledge_pattern;
  notifications : list notification;
}.

Definition with_claims (d : db) (m : gmap uuid claim) : db :=
  {| hospitals := hospitals d; claims := m; claim_denials := claim_denials d;
     appeals := appeals d; recovery_transactions := recovery_transactions d;
     payer_knowledge_graph := payer_knowledge_graph d;
     notifications := notifications d |}.

Definition with_claim_denials (d : db) (m : gmap uuid claim_denial) : db :=
  {| hospitals := hospitals d; claims := claims d; claim_denials := m;
     appeals := appeals d; recovery_transactions := recovery_transactions d;
     payer_knowledge_graph := payer_knowledge_graph d;
     notifications := notifications d |}.

Definition with_appeals (d : db) (m : gmap uuid appeal) : db :=
  {| hospitals := hospitals d; claims := claims d; claim_denials := claim_denials d;
     appeals := m; recovery_transactions := recovery_transactions d;
     payer_knowledge_graph := payer_knowledge_graph d;
     notifications := notifications d |}.

Definition with_recovery_transactions (d : db) (m : gmap uuid recovery_transaction) : db :=
  {| hospitals := hospitals d; claims := claims d; claim_denials := claim_denials d;
     appeals := appeals d; recovery_transactions := m;
     payer_knowledge_graph := payer_knowledge_graph d;
     notifications := notifications d |}.

Definition with_payer_knowledge_graph (d : db) (m : gmap pattern_id knowledge_pattern) : db :=
  {| hospitals := hospitals d; claims := claims d; claim_denials := claim_denials d;
     appeals := appeals d; recovery_transactions := recovery_transactions d;
     payer_knowledge_graph := m;
     notifications := notifications d |}.

Definition with_notifications (d : db) (l : list notification) : db :=
  {| hospitals := hospitals d; claims := claims d; claim_denials := claim_denials d;
     appeals := appeals d; recovery_transactions := recovery_transactions d;
     payer_knowledge_graph := payer_knowledge_graph d;
     notifications := l |}.

(** ** The claims table *)

Definition set_claim_status (s : claim_status_t) (c : claim) : claim :=
  {| claim_hospital_id := claim_hospital_id c; payer_id := payer_id c;
     claimed_amount := claimed_amount c; approved_amount := approved_amount c;
     paid_amount := paid_amount c; claim_status := s;
     last_status_update := last_status_update c;
     claim_updated_at := claim_updated_at c |}.

Definition set_approved_amount (a : option Z) (c : claim) : claim :=
  {| claim_hospital_id := claim_hospital_id c; payer_id := payer_id c;
     claimed_amount := claimed_amount c; approved_amount := a;
     paid_amount := paid_amount c; claim_status := claim_status c;
     last_status_update := last_status_update c;
     claim_updated_at := claim_updated_at c |}.

Definition set_paid_amount (p : Z) (c : claim) : claim :=
  {| claim_hospital_id := claim_hospital_id c; payer_id := payer_id c;
     claimed_amount := claimed_amount c; approved_amount := approved_amount c;
     paid_amount := p; claim_status := claim_status c;
     last_status_update := last_status_update c;
     claim_updated_at := claim_updated_at c |}.

(** [update_claim_status_date]: BEFORE UPDATE ON claims. *)
Definition update_claim_status_timestamp (now : timestamp) (OLD NEW : claim) : claim :=
  if decide (claim_status OLD = claim_status NEW) then NEW
  else
    {| claim_hospital_id := claim_hospital_id NEW; payer_id := payer_id NEW;
       claimed_amount := claimed_amount NEW; approved_amount := approved_amount NEW;
       paid_amount := paid_amount NEW; claim_status := claim_status NEW;
       last_status_update := now;
       claim_updated_at := claim_updated_at NEW |}.

(** [update_claims_updated_at]: BEFORE UPDATE ON claims runs
    [update_updated_at_column]. *)
Definition update_claims_updated_at (now : timestamp) (NEW : claim) : claim :=
  {| claim_hospital_id := claim_hospital_id NEW; payer_id := payer_id NEW;
     claimed_amount := claimed_amount NEW; approved_amount := approved_amount NEW;
     paid_amount := paid_amount NEW; claim_status := claim_status NEW;
     last_status_update := last_status_update NEW;
     claim_updated_at := now |}.

Definition opt_all (f : Z -> bool) (o : option Z) : bool :=
  match o with None => true | Some v => f v end.

(** Column types and CHECK constraints of [claims]; a constraint whose
    expression is NULL is satisfied. *)
Definition claims_constraints (c : claim) : result unit :=
  _ <- check (Numeric.fits 12 (claimed_amount c) && Numeric.fits 12 (paid_amount c)
              && opt_all (Numeric.fits 12) (approved_amount c))
         numeric_value_out_of_range ;;
  _ <- check (0 <=? claimed_amount c) (check_violation "claims_claimed_amount_check") ;;
  _ <- check (opt_all (Z.leb 0) (approved_amount c))
         (check_violation "claims_approved_amount_check") ;;
  _ <- check (0 <=? paid_amount c) (check_violation "claims_paid_amount_check") ;;
  _ <- check (opt_all (fun a => a <=? claimed_amount c) (approved_amount c))
         (check_violation "check_approved_lte_claimed") ;;
  check (paid_amount c <=? claimed_amount c) (check_violation "check_paid_lte_claimed").

(** [UPDATE claims SET ... WHERE id = claim_id AND cond]: at most one row
    matches; the BEFORE UPDATE triggers run in name order on the new row,
    then the row is checked and stored. *)
Definition update_claims (d : db) (claim_id : uuid) (cond : claim -> bool)
    (set : claim -> claim) (now : timestamp) : result db :=
  match claims d !! claim_id with
  | None => Ok d
  | Some OLD =>
      if cond OLD then
        let NEW := update_claims_updated_at now
                     (update_claim_status_timestamp now OLD (set OLD)) in
        _ <- claims_constraints NEW ;;
        Ok (with_claims d (<[claim_id := NEW]> (claims d)))
      else Ok d
  end.

(** ** Triggers on claim_denials *)

Definition status_in (l : list claim_status_t) (s : claim_status_t) : bool :=
  bool_decide (s ∈ l).

Definition auto_update_claim_status_on_denial (d : db) (NEW : claim_denial)
    (now : timestamp) : result db :=
  update_claims d (denial_claim_id NEW)
    (fun c => negb (status_in [cs_appealed; cs_recovered; cs_written_off] (claim_status c)))
    (set_claim_status cs_denied) now.

(** ** Triggers on appeals *)

(** [OLD.appeal_status]; OLD is the null record in an INSERT trigger. *)
Definition old_status (OLD : option appeal) : option appeal_status_t :=
  appeal_status <$> OLD.

Definition appeal_in (l : list appeal_status_t) (s : appeal_status_t) : bool :=
  bool_decide (s ∈ l).

(** [o IS NULL OR o <> s] *)
Definition null_or_distinct (o : option appeal_status_t) (s : appeal_status_t) : bool :=
  match o with None => true | Some s' => negb (bool_decide (s' = s)) end.

(** [o IS NULL OR o NOT IN l] *)
Definition null_or_not_in (o : option appeal_status_t) (l : list appeal_status_t) : bool :=
  match o with None => true | Some s' => negb (appeal_in l s') end.

Definition auto_update_claim_status_on_appeal (d : db) (OLD : option appeal)
    (NEW : appeal) (now : timestamp) : result db :=
  d1 <- (if bool_decide (appeal_status NEW = submitted)
            && null_or_distinct (old_status OLD) submitted
         then update_claims d (appeal_claim_id NEW) (fun _ => true)
                (set_claim_status cs_appealed) now
         else Ok d) ;;
  if appeal_in [accepted; partially_accepted] (appeal_status NEW)
     && null_or_not_in (old_status OLD) [accepted; partially_accepted]
  then update_claims d1 (appeal_claim_id NEW) (fun _ => true)
         (fun c =>
            set_approved_amount
              (if bool_decide (appeal_status NEW = accepted)
               then Some (claimed_amount c)
               else outcome_amount NEW)
              (set_claim_status cs_recovered c))
         now
  else Ok d1.

Definition notify_on_appeal_status_change (d : db) (OLD NEW : appeal)
    (appeal_id : uuid) : db :=
  if bool_decide (appeal_status NEW = appeal_status OLD) then d
  else
    let v_hospital_id := claim_hospital_id <$> claims d !! appeal_claim_id NEW in
    let v_notification_type :=
      match appeal_status NEW with
      | submitted => Some nt_appeal_submitted
      | accepted => Some nt_appeal_accepted
      | partially_accepted => Some nt_appeal_accepted
      | rejected => Some nt_appeal_rejected
      | additional_info_requested => Some nt_action_required
      | _ => None
      end in
    match v_notification_type with
    | None => d
    | Some t =>
        with_notifications d
          (notifications d ++
           [{| n_hospital_id := v_hospital_id;
               n_type := t;
               n_severity :=
                 if appeal_in [accepted; partially_accepted] (appeal_status NEW)
                 then sev_success
                 else if bool_decide (appeal_status NEW = rejected) then sev_error
                 else if bool_decide (appeal_status NEW = additional_info_requested)
                 then sev_warning
                 else sev_info;
               n_appeal_id := appeal_id;
               n_claim_id := appeal_claim_id NEW |}])
    end.

(** ** The knowledge graph *)

(** [success_rate], generated from the two counts with scale 4. *)
Definition success_rate (p : knowledge_pattern) : Z :=
  if 0 <? occurrence_count p
  then Numeric.ROUND (Numeric.of_int (success_count p) / Numeric.of_int (occurrence_count p))%Q 4
  else 0.

Definition kg_constraints (p : knowledge_pattern) : result unit :=
  _ <- check (opt_all (Numeric.fits 12) (avg_recovery_amount p)
              && Numeric.fits 14 (total_recovery_amount p)
              && Numeric.fits 5 (success_rate p))
         numeric_value_out_of_range ;;
  _ <- check (0 <? occurrence_count p)
         (check_violation "payer_knowledge_graph_occurrence_count_check") ;;
  _ <- check (0 <=? success_count p)
         (check_violation "payer_knowledge_graph_success_count_check") ;;
  _ <- check (opt_all (Z.leb 0) (avg_recovery_amount p))
         (check_violation "payer_knowledge_graph_avg_recovery_amount_check") ;;
  _ <- check (0 <=? total_recovery_amount p)
         (check_violation "payer_knowledge_graph_total_recovery_amount_check") ;;
  check ((0 <=? confidence_level p) && (confidence_level p <=? 100))
    (check_violation "payer_knowledge_graph_confidence_level_check").

(** ['appeal_level_' || NEW.appeal_level] *)
Definition pattern_key (NEW : appeal) : string :=
  "appeal_level_" +:+ pretty (appeal_level NEW).

(** [COALESCE(NEW.outcome_amount, 0)] *)
Definition coalesce_outcome (NEW : appeal) : Z := default 0 (outcome_amount NEW).

(** [v_success_count_delta] *)
Definition success_count_delta (NEW : appeal) : Z :=
  if appeal_in [accepted; partially_accepted] (appeal_status NEW) then 1 else 0.

(** The row of the VALUES list, with the column defaults. *)
Definition kg_values (NEW : appeal) (now : timestamp) : knowledge_pattern :=
  {| pattern_value :=
       {| pv_appeal_type := appeal_type NEW;
          pv_generated_by := generated_by NEW;
          pv_latest_outcome := appeal_status NEW |};
     occurrence_count := 1;
     success_count := success_count_delta NEW;
     avg_recovery_amount := Some (coalesce_outcome NEW);
     total_recovery_amount := coalesce_outcome NEW;
     confidence_level := 50;
     first_observed_at := now;
     last_observed_at := now;
     kg_updated_at := now |}.

(** The DO UPDATE SET list, evaluated on the existing row. *)
Definition kg_do_update (row : knowledge_pattern) (NEW : appeal) (now : timestamp)
    : result knowledge_pattern :=
  occ <- Numeric.int4 (occurrence_count row + 1) ;;
  succ <- Numeric.int4 (success_count row + success_count_delta NEW) ;;
  avg <- match avg_recovery_amount row with
         | None => Ok None
         | Some a =>
             q <- Numeric.div
                    (Numeric.of_scaled 2 a * Numeric.of_int (occurrence_count row)
                     + Numeric.of_scaled 2 (coalesce_outcome NEW))%Q
                    (Numeric.of_int occ) ;;
             v <- Numeric.store 12 2 q ;;
             Ok (Some v)
         end ;;
  Ok {| pattern_value := pattern_value row;
        occurrence_count := occ;
        success_count := succ;
        avg_recovery_amount := avg;
        total_recovery_amount := total_recovery_amount row + coalesce_outcome NEW;
        confidence_level := confidence_level row;
        first_observed_at := first_observed_at row;
        last_observed_at := now;
        kg_updated_at := now |}.

(** [INSERT INTO payer_knowledge_graph ... ON CONFLICT (payer_id,
    pattern_type, pattern_key) DO UPDATE SET ...]: one statement, which
    either inserts the row or updates the row holding the key. *)
Definition kg_upsert (kg : gmap pattern_id knowledge_pattern) (v_payer_id : option uuid)
    (NEW : appeal) (now : timestamp) : result (gmap pattern_id knowledge_pattern) :=
  match v_payer_id with
  | None => Err not_null_violation
  | Some payer =>
      let k : pattern_id := (payer, appeal_success_factor, pattern_key NEW) in
      row <- match kg !! k with
             | None => Ok (kg_values NEW now)
             | Some row => kg_do_update row NEW now
             end ;;
      _ <- kg_constraints row ;;
      Ok (<[k := row]> kg)
  end.

Definition final_status : list appeal_status_t := [accepted; partially_accepted; rejected].

(** The guard: "Only process when appeal reaches final status". *)
Definition reaches_final_status (OLD : option appeal) (NEW : appeal) : bool :=
  appeal_in final_status (appeal_status NEW)
  && null_or_not_in (old_status OLD) final_status.

Definition update_knowledge_graph_from_appeal (d : db) (OLD : option appeal)
    (NEW : appeal) (now : timestamp) : result db :=
  if reaches_final_status OLD NEW then
    let v_payer_id := payer_id <$> claims d !! appeal_claim_id NEW in
    kg <- kg_upsert (payer_knowledge_graph d) v_payer_id NEW now ;;
    Ok (with_payer_knowledge_graph d kg)
  else Ok d.

(** ** Triggers on recovery_transactions *)

Definition set_fee_percentage (p : option Z) (t : recovery_transaction) : recovery_transaction :=
  {| rt_hospital_id := rt_hospital_id t; rt_claim_id := rt_claim_id t;
     rt_appeal_id := rt_appeal_id t; recovery_amount := recovery_amount t;
     recovery_date := recovery_date t; recovery_method := recovery_method t;
     agent_fee_percentage := p; agent_fee_amount := agent_fee_amount t;
     hospital_amount := hospital_amount t; payment_status := payment_status t;
     payment_date := payment_date t; rt_updated_at := rt_updated_at t |}.

Definition set_amounts (fee hosp : option Z) (t : recovery_transaction) : recovery_transaction :=
  {| rt_hospital_id := rt_hospital_id t; rt_claim_id := rt_claim_id t;
     rt_appeal_id := rt_appeal_id t; recovery_amount := recovery_amount t;
     recovery_date := recovery_date t; recovery_method := recovery_method t;
     agent_fee_percentage := agent_fee_percentage t; agent_fee_amount := fee;
     hospital_amount := hosp; payment_status := payment_status t;
     payment_date := payment_date t; rt_updated_at := rt_updated_at t |}.

Definition set_payment_status (s : payment_status_t) (t : recovery_transaction) : recovery_transaction :=
  {| rt_hospital_id := rt_hospital_id t; rt_claim_id := rt_claim_id t;
     rt_appeal_id := rt_appeal_id t; recovery_amount := recovery_amount t;
     recovery_date := recovery_date t; recovery_method := recovery_method t;
     agent_fee_percentage := agent_fee_percentage t;
     agent_fee_amount := agent_fee_amount t;
     hospital_amount := hospital_amount t; payment_status := s;
     payment_date := payment_date t; rt_updated_at := rt_updated_at t |}.

Definition set_rt_updated_at (now : timestamp) (t : recovery_transaction) : recovery_transaction :=
  {| rt_hospital_id := rt_hospital_id t; rt_claim_id := rt_claim_id t;
     rt_appeal_id := rt_appeal_id t; recovery_amount := recovery_amount t;
     recovery_date := recovery_date t; recovery_method := recovery_method t;
     agent_fee_percentage := agent_fee_percentage t;
     agent_fee_amount := agent_fee_amount t;
     hospital_amount := hospital_amount t; payment_status := payment_status t;
     payment_date := payment_date t; rt_updated_at := now |}.

(** [ROUND((recovery_amount * agent_fee_percentage / 100)::numeric, 2)] *)
Definition fee_of (amount pct : Z) : Z :=
  Numeric.ROUND
    (Numeric.of_scaled 2 amount * Numeric.of_scaled 2 pct / Numeric.of_int 100)%Q 2.

(** [trigger_calculate_revenue_share]: BEFORE INSERT. *)
Definition calculate_revenue_share (d : db) (NEW : recovery_transaction)
    : recovery_transaction :=
  let NEW1 :=
    match agent_fee_percentage NEW with
    | Some _ => NEW
    | None =>
        set_fee_percentage
          (recovery_fee_percentage <$> hospitals d !! rt_hospital_id NEW) NEW
    end in
  let fee := fee_of (recovery_amount NEW1) <$> agent_fee_percentage NEW1 in
  let hosp := (fun f => recovery_amount NEW1 - f) <$> fee in
  set_amounts fee hosp NEW1.

(** [trigger_update_claim_on_recovery]: the function body; its WHEN clause
    and column list are in the statements below. *)
Definition update_claim_on_recovery (d : db) (NEW : recovery_transaction)
    (now : timestamp) : result db :=
  if bool_decide (payment_status NEW = processed) then
    update_claims d (rt_claim_id NEW) (fun _ => true)
      (fun c =>
         set_claim_status
           (if claimed_amount c <=? paid_amount c + recovery_amount NEW
            then cs_recovered else claim_status c)
           (set_paid_amount (paid_amount c + recovery_amount NEW) c))
      now
  else Ok d.

(** NOT NULL, column types and CHECK constraints of
    [recovery_transactions]. *)
Definition recovery_constraints (t : recovery_transaction) : result unit :=
  match agent_fee_percentage t, agent_fee_amount t, hospital_amount t with
  | Some pct, Some fee, Some hosp =>
      _ <- check (Numeric.fits 12 (recovery_amount t) && Numeric.fits 5 pct
                  && Numeric.fits 12 fee && Numeric.fits 12 hosp)
             numeric_value_out_of_range ;;
      _ <- check (0 <? recovery_amount t)
             (check_violation "recovery_transactions_recovery_amount_check") ;;
      _ <- check ((0 <=? pct) && (pct <=? 5000))
             (check_violation "recovery_transactions_agent_fee_percentage_check") ;;
      _ <- check (0 <=? fee)
             (check_violation "recovery_transactions_agent_fee_amount_check") ;;
      _ <- check (0 <=? hosp)
             (check_violation "recovery_transactions_hospital_amount_check") ;;
      _ <- check (fee + hosp =? recovery_amount t) (check_violation "check_amounts_sum") ;;
      check (opt_all (fun pd => recovery_date t <=? pd) (payment_date t))
        (check_violation "check_payment_date")
  | _, _, _ => Err not_null_violation
  end.

Definition references {A} (m : gmap uuid A) (k : uuid) : result unit :=
  check (bool_decide (is_Some (m !! k))) foreign_key_violation.

Definition references_opt {A} (m : gmap uuid A) (k : option uuid) : result unit :=
  match k with None => Ok tt | Some k => references m k end.

Definition recovery_foreign_keys (d : db) (t : recovery_transaction) : result unit :=
  _ <- references (hospitals d) (rt_hospital_id t) ;;
  _ <- references (claims d) (rt_claim_id t) ;;
  references_opt (appeals d) (rt_appeal_id t).

(** ** Statements *)

(** [INSERT INTO recovery_transactions]: the BEFORE INSERT trigger fills
    the fee columns, the row is checked and stored, then
    [trigger_update_claim_on_recovery] runs when its WHEN clause holds. *)
Definition insert_recovery_transaction (d : db) (id : uuid)
    (row : recovery_transaction) (now : timestamp) : result db :=
  let NEW := calculate_revenue_share d row in
  _ <- recovery_constraints NEW ;;
  _ <- check (bool_decide (recovery_transactions d !! id = None)) unique_violation ;;
  _ <- recovery_foreign_keys d NEW ;;
  let d1 := with_recovery_transactions d (<[id := NEW]> (recovery_transactions d)) in
  if bool_decide (payment_status NEW = processed)
  then update_claim_on_recovery d1 NEW now
  else Ok d1.

(** [UPDATE recovery_transactions SET ... WHERE id = id].  [set] gives the
    new column values from the old row; [of_payment_status] tells whether
    payment_status is among the assigned columns, which is what
    [AFTER UPDATE OF payment_status] looks at. *)
Definition update_recovery_transaction (d : db) (id : uuid)
    (set : recovery_transaction -> recovery_transaction)
    (of_payment_status : bool) (now : timestamp) : result db :=
  match recovery_transactions d !! id with
  | None => Ok d
  | Some OLD =>
      let NEW0 := if of_payment_status then set OLD
                  else set_payment_status (payment_status OLD) (set OLD) in
      let NEW := set_rt_updated_at now NEW0 in
      _ <- recovery_constraints NEW ;;
      _ <- recovery_foreign_keys d NEW ;;
      let d1 := with_recovery_transactions d (<[id := NEW]> (recovery_transactions d)) in
      if of_payment_status && bool_decide (payment_status NEW = processed)
      then update_claim_on_recovery d1 NEW now
      else Ok d1
  end.

(** Column types and CHECK constraints of [appeals]. *)
Definition appeals_constraints (a : appeal) : result unit :=
  _ <- check (opt_all (Numeric.fits 12) (outcome_amount a)) numeric_value_out_of_range ;;
  _ <- check ((1 <=? appeal_level a) && (appeal_level a <=? 3))
         (check_violation "appeals_appeal_level_check") ;;
  _ <- check (opt_all (Z.leb 0) (outcome_amount a))
         (check_violation "appeals_outcome_amount_check") ;;
  check (match response_received_date a, response_due_date a, submitted_date a with
         | Some r, Some _, Some s => date_of s <=? r
         | _, _, _ => true
         end)
    (check_violation "check_response_dates").

Definition appeals_foreign_keys (d : db) (a : appeal) : result unit :=
  _ <- references (claims d) (appeal_claim_id a) ;;
  references_opt (claim_denials d) (denial_id a).

(** [INSERT INTO appeals]: of the triggers on appeals only
    [trigger_update_claim_on_appeal] is declared for INSERT. *)
Definition insert_appeal (d : db) (id : uuid) (row : appeal) (now : timestamp)
    : result db :=
  _ <- appeals_constraints row ;;
  _ <- check (bool_decide (appeals d !! id = None)) unique_violation ;;
  _ <- appeals_foreign_keys d row ;;
  let d1 := with_appeals d (<[id := row]> (appeals d)) in
  auto_update_claim_status_on_appeal d1 None row now.

Definition set_appeal_updated_at (now : timestamp) (a : appeal) : appeal :=
  {| appeal_claim_id := appeal_claim_id a; denial_id := denial_id a;
     appeal_level := appeal_level a; appeal_type := appeal_type a;
     generated_by := generated_by a; appeal_status := appeal_status a;
     submitted_date := submitted_date a; response_due_date := response_due_date a;
     response_received_date := response_received_date a;
     outcome_amount := outcome_amount a; appeal_updated_at := now |}.

(** [UPDATE appeals SET ... WHERE id = id]: [update_appeals_updated_at]
    before, then the three AFTER UPDATE triggers in name order. *)
Definition update_appeal (d : db) (id : uuid) (set : appeal -> appeal)
    (now : timestamp) : result db :=
  match appeals d !! id with
  | None => Ok d
  | Some OLD =>
      let NEW := set_appeal_updated_at now (set OLD) in
      _ <- appeals_constraints NEW ;;
      _ <- appeals_foreign_keys d NEW ;;
      let d1 := with_appeals d (<[id := NEW]> (appeals d)) in
      let d2 := notify_on_appeal_status_change d1 OLD NEW id in
      d3 <- auto_update_claim_status_on_appeal d2 (Some OLD) NEW now ;;
      update_knowledge_graph_from_appeal d3 (Some OLD) NEW now
  end.

Definition claim_denials_constraints (r : claim_denial) : result unit :=
  _ <- check (Numeric.fits 12 (denial_amount r)) numeric_value_out_of_range ;;
  check (0 <=? denial_amount r) (check_violation "claim_denials_denial_amount_check").

(** [INSERT INTO claim_denials]. *)
Definition insert_claim_denial (d : db) (id : uuid) (row : claim_denial)
    (now : timestamp) : result db :=
  _ <- claim_denials_constraints row ;;
  _ <- check (bool_decide (claim_denials d !! id = None)) unique_violation ;;
  _ <- references (claims d) (denial_claim_id row) ;;
  let d1 := with_claim_denials d (<[id := row]> (claim_denials d)) in
  auto_update_claim_status_on_denial d1 row now.

(** The statements the workflow issues, one per inbound event. *)
Inductive statement : Type :=
  | InsertClaimDenial (id : uuid) (row : claim_denial)
  | InsertAppeal (id : uuid) (row : appeal)
  | UpdateAppeal (id : uuid) (set : appeal -> appeal)
  | InsertRecoveryTransaction (id : uuid) (row : recovery_transaction)
  | UpdateRecoveryTransaction (id : uuid)
      (set : recovery_transaction -> recovery_transaction) (of_payment_status : bool).

Definition exec (d : db) (st : statement) (now : timestamp) : result db :=
  match st with
  | InsertClaimDenial id row => insert_claim_denial d id row now
  | InsertAppeal id row => insert_appeal d id row now
  | UpdateAppeal id set => update_appeal d id set now
  | InsertRecoveryTransaction id row => insert_recovery_transaction d id row now
  | UpdateRecoveryTransaction id set ops => update_recovery_transaction d id set ops now
  end.

(** A failed statement is rolled back: the database stays as it was. *)
Definition run (d : db) (st : statement) (now : timestamp) : db :=
  match exec d st now with
  | Ok d' => d'
  | Err _ => d
  end.

(** ** Concurrent invocations of the knowledge-graph trigger

    Each appeal update runs [update_knowledge_graph_from_appeal] in its own
    session.  The function body is three steps: the guard, the SELECT of
    the payer into [v_payer_id], and the upsert.  The upsert is a single
    [INSERT ... ON CONFLICT DO UPDATE] statement, which PostgreSQL executes
    atomically with respect to the other writers of the key; it is one
    step here.  A schedule names the session that takes the next step. *)

Inductive pc_t : Type :=
  | at_guard
  | at_select
  | at_upsert (v_payer_id : option uuid)
  | returned
  | aborted (e : sql_error).

Record invocation : Type := {
  inv_OLD : option appeal;
  inv_NEW : appeal;
  inv_now : timestamp;
  inv_pc : pc_t;
}.

Definition at_pc (i : invocation) (pc : pc_t) : invocation :=
  {| inv_OLD := inv_OLD i; inv_NEW := inv_NEW i; inv_now := inv_now i; inv_pc := pc |}.

Definition invoke (OLD : option appeal) (NEW : appeal) (now : timestamp) : invocation :=
  {| inv_OLD := OLD; inv_NEW := NEW; inv_now := now; inv_pc := at_guard |}.

Definition step (d : db) (i : invocation) : db * invocation :=
  match inv_pc i with
  | at_guard =>
      if reaches_final_status (inv_OLD i) (inv_NEW i)
      then (d, at_pc i at_select) else (d, at_pc i returned)
  | at_select =>
      (d, at_pc i (at_upsert (payer_id <$> claims d !! appeal_claim_id (inv_NEW i))))
  | at_upsert v =>
      match kg_upsert (payer_knowledge_graph d) v (inv_NEW i) (inv_now i) with
      | Ok kg => (with_payer_knowledge_graph d kg, at_pc i returned)
      | Err e => (d, at_pc i (aborted e))
      end
  | returned | aborted _ => (d, i)
  end.

Fixpoint interleave (d : db) (sessions : list invocation) (schedule : list nat)
    : db * list invocation :=
  match schedule with
  | [] => (d, sessions)
  | n :: schedule' =>
      match sessions !! n with
      | None => interleave d sessions schedule'
      | Some i =>
          let '(d', i') := step d i in
          interleave d' (<[n := i']> sessions) schedule'
      end
  end.



(** ** Predicates used in the statements below *)

(** Every table but [claims] is the same in both databases. *)
Definition same_but_claims (d d' : db) : Prop :=
  hospitals d' = hospitals d /\ claim_denials d' = claim_denials d /\
  appeals d' = appeals d /\ recovery_transactions d' = recovery_transactions d /\
  payer_knowledge_graph d' = payer_knowledge_graph d /\
  notifications d' = notifications d.

(** [fee_amount + hospital_amount = recovery_amount] on a stored row. *)
Definition amounts_sum (t : recovery_transaction) : Prop :=
  exists fee hosp, agent_fee_amount t = Some fee /\ hospital_amount t = Some hosp /\
                   fee + hosp = recovery_amount t.

(** The percentage the trigger uses: the one in the row, else the
    hospital's configured one. *)
Definition effective_fee_percentage (d : db) (NEW : recovery_transaction) : option Z :=
  match agent_fee_percentage NEW with
  | Some p => Some p
  | None => recovery_fee_percentage <$> hospitals d !! rt_hospital_id NEW
  end.

(** ** Sample data: one hospital charging 25.00 %, one claim of 125000.00 *)

Definition hope_hospital : hospital := {| recovery_fee_percentage := 2500 |}.

Definition claim_125000 : claim :=
  {| claim_hospital_id := 1%N; payer_id := 7%N; claimed_amount := 12500000;
     approved_amount := None; paid_amount := 0; claim_status := cs_submitted;
     last_status_update := 0; claim_updated_at := 0 |}.

Definition sample_db : db :=
  {| hospitals := {[ 1%N := hope_hospital ]};
     claims := {[ 1%N := claim_125000 ]};
     claim_denials := ∅; appeals := ∅; recovery_transactions := ∅;
     payer_knowledge_graph := ∅; notifications := [] |}.

(** A recovery of 60000.00 on the sample claim. *)
Definition recovery_60000 (pct : option Z) (s : payment_status_t) : recovery_transaction :=
  {| rt_hospital_id := 1%N; rt_claim_id := 1%N; rt_appeal_id := None;
     recovery_amount := 6000000; recovery_date := 0;
     recovery_method := direct_payment;
     agent_fee_percentage := pct; agent_fee_amount := None;
     hospital_amount := None; payment_status := s;
     payment_date := None; rt_updated_at := 0 |}.

(** The sample database with its claim replaced. *)
Definition db_with_claim (c : claim) : db := with_claims sample_db {[ 1%N := c ]}.

(** A first-level appeal on the sample claim. *)
Definition appeal_of (s : appeal_status_t) (out : option Z) : appeal :=
  {| appeal_claim_id := 1%N; denial_id := None; appeal_level := 1;
     appeal_type := reconsideration; generated_by := ai_agent;
     appeal_status := s; submitted_date := None; response_due_date := None;
     response_received_date := None; outcome_amount := out;
     appeal_updated_at := 0 |}.

Definition set_appeal_status (s : appeal_status_t) (a : appeal) : appeal :=
  {| appeal_claim_id := appeal_claim_id a; denial_id := denial_id a;
     appeal_level := appeal_level a; appeal_type := appeal_type a;
     generated_by := generated_by a; appeal_status := s;
     submitted_date := submitted_date a; response_due_date := response_due_date a;
     response_received_date := response_received_date a;
     outcome_amount := outcome_amount a; appeal_updated_at := appeal_updated_at a |}.


(** The statement is an AppealSubmitted event: it stores an appeal in
    status [submitted] that was not in that status before. *)
Definition submits_appeal (d : db) (st : statement) : bool :=
  match st with
  | InsertAppeal _ row => bool_decide (appeal_status row = submitted)
  | UpdateAppeal id set =>
      match appeals d !! id with
      | Some OLD =>
          bool_decide (appeal_status (set OLD) = submitted)
          && negb (bool_decide (appeal_status OLD = submitted))
      | None => false
      end
  | _ => false
  end.

Definition recovered_claim : claim :=
  set_claim_status cs_recovered (set_paid_amount 12500000 claim_125000).

Definition denial_125000 : claim_denial :=
  {| denial_claim_id := 1%N; denial_amount := 12500000; denial_date := 0 |}.

(** [paid_amount <= claimed_amount] on every claim. *)
Definition paid_within_claimed (d : db) : Prop :=
  forall id c, claims d !! id = Some c -> paid_amount c <= claimed_amount c.

(** Statements issued one after the other, each at its own time. *)
Definition run_all (d : db) (l : list (statement * timestamp)) : db :=
  fold_left (fun d x => run d x.1 x.2) l d.

(** The key of the row an appeal outcome is counted under. *)
Definition pattern_id_of (c : claim) (NEW : appeal) : pattern_id :=
  (payer_id c, appeal_success_factor, pattern_key NEW).

(** [0 <= success_count <= occurrence_count] on every pattern. *)
Definition success_within_occurrences (d : db) : Prop :=
  forall k row, payer_knowledge_graph d !! k = Some row ->
    0 <= success_count row <= occurrence_count row.

(** The key of first-level appeals against the sample payer. *)
Definition level_1_key : pattern_id := (7%N, appeal_success_factor, "appeal_level_1").


(** Three appeals, the first accepted and the other two rejected. *)
Definition one_of_three_history : list (statement * timestamp) :=
  [ (InsertAppeal 10%N (appeal_of draft None), 1);
    (UpdateAppeal 10%N (set_appeal_status accepted), 2);
    (InsertAppeal 11%N (appeal_of draft None), 3);
    (UpdateAppeal 11%N (set_appeal_status rejected), 4);
    (InsertAppeal 12%N (appeal_of draft None), 5);
    (UpdateAppeal 12%N (set_appeal_status rejected), 6) ].




(** Two claims against the same payer, and an appeal on the second one. *)
Definition two_claims_db : db :=
  with_claims sample_db {[ 1%N := claim_125000; 2%N := claim_125000 ]}.



(** ** Views of the fifth migration

    A view is a function of the database.  [COALESCE(SUM(x), 0)] over the
    rows of a table that satisfy the WHERE clause: NULLs are skipped, no
    row gives 0. *)

Definition coalesce_sum {A} (x : A -> option Z) (rows : list A) : Z :=
  foldr (fun a acc => default 0 (x a) + acc) 0 rows.

Definition rows_where {A} (cond : A -> bool) (m : gmap uuid A) : list A :=
  filter (fun a => Is_true (cond a)) (map_to_list m).*2.

(** dashboard_metrics: the revenue-share columns of hospital [h]. *)
Definition recoveries_of (d : db) (h : uuid) : list recovery_transaction :=
  rows_where (fun t => bool_decide (rt_hospital_id t = h)) (recovery_transactions d).

Definition total_agent_fees (d : db) (h : uuid) : Z :=
  coalesce_sum agent_fee_amount (recoveries_of d h).

Definition total_hospital_recovered (d : db) (h : uuid) : Z :=
  coalesce_sum hospital_amount (recoveries_of d h).

Definition total_recovery_value (d : db) (h : uuid) : Z :=
  coalesce_sum (fun t => Some (recovery_amount t)) (recoveries_of d h).








(** The priority_score column, from [denial_amount] and the two
    AI-generated analysis columns [recovery_probability] (scale 2) and
    [recovery_effort_score]. *)
Definition priority_score (denial_amount : Z) (recovery_probability : option Z)
    (recovery_effort_score : option Z) : Q :=
  (Numeric.of_scaled 2 denial_amount / Numeric.of_int 100000 * Qmake 4 10
   + default (Qmake 5 10) (Numeric.of_scaled 2 <$> recovery_probability)
     * Numeric.of_int 100 * Qmake 4 10
   + Numeric.of_int ((11 - default 5 recovery_effort_score) * 10)%Z * Qmake 2 10)%Q.

(** ** Further predicates and sample data *)

Definition set_recovery_amount (a : Z) (t : recovery_transaction) : recovery_transaction :=
  {| rt_hospital_id := rt_hospital_id t; rt_claim_id := rt_claim_id t;
     rt_appeal_id := rt_appeal_id t; recovery_amount := a;
     recovery_date := recovery_date t; recovery_method := recovery_method t;
     agent_fee_percentage := agent_fee_percentage t;
     agent_fee_amount := agent_fee_amount t;
     hospital_amount := hospital_amount t; payment_status := payment_status t;
     payment_date := payment_date t; rt_updated_at := rt_updated_at t |}.

(** The claim a statement refers to. *)
Definition claim_of (d : db) (st : statement) : option uuid :=
  match st with
  | InsertClaimDenial _ row => Some (denial_claim_id row)
  | InsertAppeal _ row => Some (appeal_claim_id row)
  | UpdateAppeal id set => (fun OLD => appeal_claim_id (set OLD)) <$> appeals d !! id
  | InsertRecoveryTransaction _ row => Some (rt_claim_id row)
  | UpdateRecoveryTransaction id set _ =>
      (fun OLD => rt_claim_id (set OLD)) <$> recovery_transactions d !! id
  end.

(** The statuses for which the notification trigger writes a row. *)
Definition notified_status : list appeal_status_t :=
  [submitted; accepted; partially_accepted; rejected; additional_info_requested].





(** The SET list gave [c1] from [c] without touching the claimed amount,
    the payer, the hospital or the status date. *)
Definition keeps_identity (c c1 : claim) : Prop :=
  claimed_amount c1 = claimed_amount c /\ payer_id c1 = payer_id c /\
  claim_hospital_id c1 = claim_hospital_id c /\
  last_status_update c1 = last_status_update c.

(** The row stored by an UPDATE of claim [c] to [c1]: the two BEFORE UPDATE
    triggers have run on it. *)
Definition stamped (now : timestamp) (c c1 : claim) : claim :=
  update_claims_updated_at now (update_claim_status_timestamp now c c1).

(** The sample claim after a denial has been recorded on it. *)
Definition denied_db : db := run sample_db (InsertClaimDenial 3%N denial_125000) 9.


(** * Properties *)

(** ** Rounding *)

Section Rounding.

Import Numeric.

Example round_div_half : Numeric.round_div 5 10 = 1 /\ Numeric.round_div (-5) 10 = -1
  /\ Numeric.round_div 4 10 = 0 /\ Numeric.round_div 15 10 = 2.
Proof. vm_compute. auto. Qed.

Lemma round_div_nonneg n d : 0 <= n -> 0 < d -> round_div n d = (2 * n + d) / (2 * d).
Proof.
  intros Hn Hd. unfold round_div.
  destruct (Z.eq_dec n 0) as [->|Hne].
  - change (Z.sgn 0) with 0. change (Z.abs 0) with 0.
    rewrite (Z.div_small (2 * 0 + d)) by lia. lia.
  - rewrite Z.sgn_pos, Z.abs_eq by lia. lia.
Qed.

Lemma round_div_opp n d : round_div (- n) d = - round_div n d.
Proof. unfold round_div. rewrite Z.sgn_opp, Z.abs_opp. lia. Qed.

Lemma round_div_scale k n d : 0 < k -> 0 < d -> round_div (k * n) (k * d) = round_div n d.
Proof.
  intros Hk Hd. unfold round_div.
  rewrite Z.sgn_mul, Z.abs_mul, (Z.sgn_pos k), (Z.abs_eq k) by lia.
  replace (2 * (k * Z.abs n) + k * d) with (k * (2 * Z.abs n + d)) by lia.
  replace (2 * (k * d)) with (k * (2 * d)) by lia.
  rewrite Z.div_mul_cancel_l by lia. lia.
Qed.

Lemma round_div_nearest_nonneg n d :
  0 <= n -> 0 < d -> nearest_half_away n d (round_div n d).
Proof.
  intros Hn Hd. rewrite round_div_nonneg by lia.
  pose proof (Z.div_mod (2 * n + d) (2 * d) ltac:(lia)) as E.
  pose proof (Z.mod_pos_bound (2 * n + d) (2 * d) ltac:(lia)) as B.
  set (r := (2 * n + d) / (2 * d)) in *.
  set (m := (2 * n + d) mod (2 * d)) in *.
  assert (Hr : 0 <= r) by (apply Z.div_pos; lia).
  unfold nearest_half_away. split; [lia|]. intros Ht.
  assert (0 <= r * d) by nia. lia.
Qed.

Lemma round_div_nearest n d : 0 < d -> nearest_half_away n d (round_div n d).
Proof.
  intros Hd. destruct (Z_le_gt_dec 0 n) as [Hn|Hn].
  - by apply round_div_nearest_nonneg.
  - pose proof (round_div_nearest_nonneg (- n) d ltac:(lia) Hd) as [H1 H2].
    rewrite round_div_opp in H1, H2.
    split; [lia|intros Ht; lia].
Qed.

(** The nearest integer with ties away from zero is unique, so
    [round_div] is that rounding. *)
Lemma nearest_half_away_unique n d r1 r2 :
  0 < d -> nearest_half_away n d r1 -> nearest_half_away n d r2 -> r1 = r2.
Proof.
  intros Hd [A1 T1] [A2 T2].
  destruct (Z.eq_dec r1 r2) as [|Hne]; [done|exfalso].
  assert (Hd1 : d <= Z.abs (r1 * d - r2 * d)).
  { replace (r1 * d - r2 * d) with ((r1 - r2) * d) by lia.
    rewrite Z.abs_mul, (Z.abs_eq d) by lia.
    assert (1 <= Z.abs (r1 - r2)) by lia. nia. }
  assert (E1 : 2 * Z.abs (n - r1 * d) = d) by lia.
  assert (E2 : 2 * Z.abs (n - r2 * d) = d) by lia.
  specialize (T1 E1). specialize (T2 E2).
  assert (M : forall r, r = 0 \/ d <= Z.abs (r * d)).
  { intros r. destruct (Z.eq_dec r 0); [by left|right].
    rewrite Z.abs_mul, (Z.abs_eq d) by lia.
    assert (1 <= Z.abs r) by lia. nia. }
  destruct (M r1) as [->|M1], (M r2) as [->|M2]; lia.
Qed.

Lemma fee_of_round amount pct : fee_of amount pct = round_div (amount * pct) 10000.
Proof.
  unfold fee_of, ROUND, of_scaled, of_int. cbn -[Z.mul round_div].
  change (10 ^ Z.of_nat 2) with 100.
  change (Z.pos (Z.to_pos 100 * Z.to_pos 100 * 100)) with (100 * 10000).
  replace (amount * pct * 1 * 100) with (100 * (amount * pct)) by lia.
  apply round_div_scale; lia.
Qed.

(** 60000.00 at 25 %; 0.01 at 50 % is a tie and goes up; 0.03 at 33.33 %
    goes up to 0.01; 0.01 at 49.99 % goes down to 0. *)
Example fee_of_samples :
  fee_of 6000000 2500 = 1500000 /\ fee_of 1 5000 = 1 /\ fee_of 3 3333 = 1
  /\ fee_of 1 4999 = 0.
Proof. vm_compute. auto. Qed.

End Rounding.

(** ** The statement monad *)

Lemma rbind_Ok {A B} (r : result A) (k : A -> result B) b :
  rbind r k = Ok b -> exists a, r = Ok a /\ k a = Ok b.
Proof. destruct r as [a|e]; simpl; [eauto|discriminate]. Qed.

Lemma check_Ok b e u : check b e = Ok u -> b = true.
Proof. destruct b; [done|discriminate]. Qed.

Lemma check_true e : check true e = Ok tt.
Proof. done. Qed.

(** Splitting a successful run into its successful steps. *)
Ltac ok_inv H :=
  repeat match type of H with
  | rbind _ _ = Ok _ =>
      let a := fresh "a" in
      let Ha := fresh "Hok" in
      apply rbind_Ok in H as (a & Ha & H);
      try (apply check_Ok in Ha)
  | check _ _ = Ok _ => apply check_Ok in H
  | Ok _ = Ok _ => injection H as H
  end.

(** Case analysis on the condition of an [if] heading a hypothesis. *)
Ltac case_if_in H :=
  match type of H with
  | (if ?b then _ else _) = _ => destruct b eqn:?
  end.

(** ** Frame: what a claims update leaves alone *)

Lemma same_but_claims_refl d : same_but_claims d d.
Proof. by repeat split. Qed.

Lemma same_but_claims_trans d1 d2 d3 :
  same_but_claims d1 d2 -> same_but_claims d2 d3 -> same_but_claims d1 d3.
Proof.
  intros (?&?&?&?&?&?) (?&?&?&?&?&?). repeat split; congruence.
Qed.

Lemma update_claims_frame d id cond set now d' :
  update_claims d id cond set now = Ok d' -> same_but_claims d d'.
Proof.
  unfold update_claims. intros H.
  destruct (claims d !! id) as [OLD|]; [|injection H as <-; apply same_but_claims_refl].
  destruct (cond OLD); [|injection H as <-; apply same_but_claims_refl].
  ok_inv H. subst d'. by repeat split.
Qed.

(** The row a claims update stores. *)
Lemma update_claims_lookup d id cond set now d' OLD :
  update_claims d id cond set now = Ok d' ->
  claims d !! id = Some OLD ->
  claims d' !! id =
    Some (if cond OLD
          then update_claims_updated_at now (update_claim_status_timestamp now OLD (set OLD))
          else OLD).
Proof.
  unfold update_claims. intros H E. rewrite E in H.
  destruct (cond OLD); [|by injection H as <-].
  ok_inv H. subst d'. simpl. by rewrite lookup_insert_eq.
Qed.

Lemma update_claims_lookup_ne d id cond set now d' id' :
  update_claims d id cond set now = Ok d' -> id' <> id ->
  claims d' !! id' = claims d !! id'.
Proof.
  unfold update_claims. intros H Hne.
  destruct (claims d !! id) as [OLD|]; [|by injection H as <-].
  destruct (cond OLD); [|by injection H as <-].
  ok_inv H. subst d'. simpl. by rewrite lookup_insert_ne.
Qed.

Lemma update_claims_constraints d id cond set now d' c :
  update_claims d id cond set now = Ok d' ->
  claims d' !! id = Some c ->
  claims d !! id = Some c \/ claims_constraints c = Ok tt.
Proof.
  unfold update_claims. intros H E.
  destruct (claims d !! id) as [OLD|] eqn:EO; [|injection H as <-; left; congruence].
  destruct (cond OLD); [|injection H as <-; left; congruence].
  ok_inv H. subst d'. simpl in E. rewrite lookup_insert_eq in E. injection E as <-.
  right. by destruct a.
Qed.

Lemma status_timestamp_fields now OLD NEW :
  let r := update_claims_updated_at now (update_claim_status_timestamp now OLD NEW) in
  claimed_amount r = claimed_amount NEW /\ paid_amount r = paid_amount NEW /\
  approved_amount r = approved_amount NEW /\ claim_status r = claim_status NEW /\
  payer_id r = payer_id NEW /\ claim_hospital_id r = claim_hospital_id NEW.
Proof.
  unfold update_claims_updated_at, update_claim_status_timestamp.
  destruct (decide _); simpl; done.
Qed.

Lemma auto_update_claim_status_on_denial_frame d NEW now d' :
  auto_update_claim_status_on_denial d NEW now = Ok d' -> same_but_claims d d'.
Proof. apply update_claims_frame. Qed.

Lemma auto_update_claim_status_on_appeal_frame d OLD NEW now d' :
  auto_update_claim_status_on_appeal d OLD NEW now = Ok d' -> same_but_claims d d'.
Proof.
  unfold auto_update_claim_status_on_appeal. intros H.
  apply rbind_Ok in H as (d1 & H1 & H2).
  apply same_but_claims_trans with d1.
  - case_if_in H1; [by eapply update_claims_frame|].
    injection H1 as <-. apply same_but_claims_refl.
  - case_if_in H2; [by eapply update_claims_frame|].
    injection H2 as <-. apply same_but_claims_refl.
Qed.

Lemma update_claim_on_recovery_frame d NEW now d' :
  update_claim_on_recovery d NEW now = Ok d' -> same_but_claims d d'.
Proof.
  unfold update_claim_on_recovery. intros H.
  destruct (bool_decide _); [by eapply update_claims_frame|].
  injection H as <-. apply same_but_claims_refl.
Qed.

Lemma notify_on_appeal_status_change_frame d OLD NEW id :
  let d' := notify_on_appeal_status_change d OLD NEW id in
  hospitals d' = hospitals d /\ claims d' = claims d /\
  claim_denials d' = claim_denials d /\ appeals d' = appeals d /\
  recovery_transactions d' = recovery_transactions d /\
  payer_knowledge_graph d' = payer_knowledge_graph d.
Proof.
  unfold notify_on_appeal_status_change.
  destruct (bool_decide _); [done|].
  by destruct (appeal_status NEW).
Qed.

Lemma update_knowledge_graph_from_appeal_frame d OLD NEW now d' :
  update_knowledge_graph_from_appeal d OLD NEW now = Ok d' ->
  hospitals d' = hospitals d /\ claims d' = claims d /\
  claim_denials d' = claim_denials d /\ appeals d' = appeals d /\
  recovery_transactions d' = recovery_transactions d /\
  notifications d' = notifications d.
Proof.
  unfold update_knowledge_graph_from_appeal. intros H.
  destruct (reaches_final_status OLD NEW); [|by injection H as <-].
  ok_inv H. by subst d'.
Qed.

(** ** Revenue share *)

Lemma recovery_constraints_sum t :
  recovery_constraints t = Ok tt -> amounts_sum t.
Proof.
  unfold recovery_constraints, amounts_sum. intros H.
  destruct (agent_fee_percentage t), (agent_fee_amount t) as [f|],
    (hospital_amount t) as [h|]; try discriminate.
  ok_inv H. exists f, h. repeat split. lia.
Qed.

Lemma calculate_revenue_share_sum d NEW fee hosp :
  agent_fee_amount (calculate_revenue_share d NEW) = Some fee ->
  hospital_amount (calculate_revenue_share d NEW) = Some hosp ->
  fee + hosp = recovery_amount NEW.
Proof.
  unfold calculate_revenue_share.
  destruct (agent_fee_percentage NEW) as [p|] eqn:E; simpl.
  - rewrite E. simpl. intros [= <-] [= <-]. lia.
  - destruct (hospitals d !! rt_hospital_id NEW); simpl; [|discriminate].
    intros [= <-] [= <-]. lia.
Qed.

Lemma calculate_revenue_share_amount d NEW :
  recovery_amount (calculate_revenue_share d NEW) = recovery_amount NEW.
Proof.
  unfold calculate_revenue_share. by destruct (agent_fee_percentage NEW).
Qed.

Lemma exec_recovery_transactions d st now d' id t :
  exec d st now = Ok d' ->
  recovery_transactions d' !! id = Some t ->
  recovery_transactions d !! id = Some t \/ recovery_constraints t = Ok tt.
Proof.
  destruct st as [i row|i row|i set|i row|i set ops]; simpl; intros H L.
  - unfold insert_claim_denial in H. ok_inv H.
    apply auto_update_claim_status_on_denial_frame in H as (_&_&_&E&_).
    simpl in E. left. by rewrite <- E.
  - unfold insert_appeal in H. ok_inv H.
    apply auto_update_claim_status_on_appeal_frame in H as (_&_&_&E&_).
    simpl in E. left. by rewrite <- E.
  - unfold update_appeal in H.
    destruct (appeals d !! i) as [OLD|]; [|injection H as <-; by left].
    ok_inv H.
    apply update_knowledge_graph_from_appeal_frame in H as (_&_&_&_&E3&_).
    apply auto_update_claim_status_on_appeal_frame in Hok1 as (_&_&_&E2&_).
    match type of E2 with
    | context [notify_on_appeal_status_change ?a ?b ?c ?e] =>
        destruct (notify_on_appeal_status_change_frame a b c e) as (_&_&_&_&E1&_)
    end.
    simpl in E1. left. rewrite <- L. rewrite E3, E2, E1. done.
  - unfold insert_recovery_transaction in H. ok_inv H.
    assert (Hrt : recovery_transactions d' =
                  <[i := calculate_revenue_share d row]> (recovery_transactions d)).
    { destruct (bool_decide (payment_status _ = processed)).
      - by apply update_claim_on_recovery_frame in H as (_&_&_&E&_).
      - by injection H as <-. }
    rewrite Hrt in L. destruct (decide (i = id)) as [->|Hne].
    + rewrite lookup_insert_eq in L. injection L as <-. right. by destruct a.
    + rewrite lookup_insert_ne in L by done. by left.
  - unfold update_recovery_transaction in H.
    destruct (recovery_transactions d !! i) as [OLD|]; [|injection H as <-; by left].
    ok_inv H.
    match type of Hok with recovery_constraints ?N = _ => set (NEW := N) in * end.
    assert (Hrt : recovery_transactions d' = <[i := NEW]> (recovery_transactions d)).
    { destruct (ops && _).
      - by apply update_claim_on_recovery_frame in H as (_&_&_&E&_).
      - by injection H as <-. }
    rewrite Hrt in L. destruct (decide (i = id)) as [->|Hne].
    + rewrite lookup_insert_eq in L. injection L as <-. right. by destruct a.
    + rewrite lookup_insert_ne in L by done. by left.
Qed.

Lemma fee_of_bounds amount pct :
  0 < amount -> 0 <= pct <= 5000 -> 0 <= fee_of amount pct <= amount.
Proof.
  intros Ha Hp. rewrite fee_of_round, round_div_nonneg by nia. split.
  - apply Z.div_pos; nia.
  - apply Z.div_le_upper_bound; nia.
Qed.

Lemma calculate_revenue_share_accepted d NEW p :
  effective_fee_percentage d NEW = Some p ->
  0 <= p <= 5000 ->
  0 < recovery_amount NEW < 10 ^ 12 ->
  (forall pd, payment_date NEW = Some pd -> recovery_date NEW <= pd) ->
  recovery_constraints (calculate_revenue_share d NEW) = Ok tt.
Proof.
  intros Hp Hr Ha Hd.
  pose proof (fee_of_bounds (recovery_amount NEW) p ltac:(lia) Hr) as Hf.
  assert (E : calculate_revenue_share d NEW =
              set_amounts (Some (fee_of (recovery_amount NEW) p))
                (Some (recovery_amount NEW - fee_of (recovery_amount NEW) p))
                (set_fee_percentage (Some p) NEW)).
  { unfold calculate_revenue_share, effective_fee_percentage in *.
    destruct (agent_fee_percentage NEW) as [q|] eqn:Eq.
    - injection Hp as ->. rewrite Eq. simpl. unfold set_amounts, set_fee_percentage.
      simpl. by rewrite Eq.
    - rewrite Hp. reflexivity. }
  rewrite E. unfold recovery_constraints, Numeric.fits. simpl.
  change (10 ^ Z.of_nat 12) with (10 ^ 12). change (10 ^ Z.of_nat 5) with 100000.
  set (f := fee_of (recovery_amount NEW) p) in *.
  assert (F1 : (Z.abs (recovery_amount NEW) <? 10 ^ 12) = true) by lia.
  assert (F2 : (Z.abs p <? 100000) = true) by lia.
  assert (F3 : (Z.abs f <? 10 ^ 12) = true) by lia.
  assert (F4 : (Z.abs (recovery_amount NEW - f) <? 10 ^ 12) = true) by lia.
  assert (F5 : (0 <? recovery_amount NEW) = true) by lia.
  assert (F6 : (0 <=? p) = true) by lia.
  assert (F7 : (p <=? 5000) = true) by lia.
  assert (F8 : (0 <=? f) = true) by lia.
  assert (F9 : (0 <=? recovery_amount NEW - f) = true) by lia.
  assert (F10 : (f + (recovery_amount NEW - f) =? recovery_amount NEW) = true) by lia.
  rewrite F1, F2, F3, F4, F5, F6, F7, F8, F9, F10. simpl.
  destruct (payment_date NEW) as [pd|] eqn:Epd; simpl; [|done].
  specialize (Hd pd eq_refl). by rewrite (proj2 (Z.leb_le _ _)) by lia.
Qed.

Lemma run_amounts_sum d st now :
  (forall id t, recovery_transactions d !! id = Some t -> amounts_sum t) ->
  forall id t, recovery_transactions (run d st now) !! id = Some t -> amounts_sum t.
Proof.
  intros Hinv id t. unfold run.
  destruct (exec d st now) as [d'|e] eqn:E; [|apply Hinv].
  intros L. destruct (exec_recovery_transactions _ _ _ _ _ _ E L) as [L'|C].
  - by eapply Hinv.
  - by apply recovery_constraints_sum.
Qed.

Lemma run_all_amounts_sum l d :
  (forall id t, recovery_transactions d !! id = Some t -> amounts_sum t) ->
  forall id t, recovery_transactions (run_all d l) !! id = Some t -> amounts_sum t.
Proof.
  revert d. induction l as [|[st now] l IH]; intros d Hinv; [exact Hinv|].
  apply (IH (run d st now)). by apply run_amounts_sum.
Qed.

(** C1: every stored recovery transaction satisfies
    [agent_fee_amount + hospital_amount = recovery_amount] exactly.  The
    BEFORE INSERT trigger produces such a row whatever the percentage and
    the amount; for a percentage in [0, 50] and a positive amount the row
    passes every constraint of the table; and the property survives every
    statement, updates of the row included (a statement that would break
    it is rejected by [check_amounts_sum] and rolled back), so it holds
    for every row after any sequence of statements on a table that
    started empty. *)
Theorem recovery_amounts_sum_invariant (d : db) (st : statement) (now : timestamp) :
  (forall NEW fee hosp,
     agent_fee_amount (calculate_revenue_share d NEW) = Some fee ->
     hospital_amount (calculate_revenue_share d NEW) = Some hosp ->
     fee + hosp = recovery_amount NEW) /\
  (forall NEW p,
     effective_fee_percentage d NEW = Some p ->
     0 <= p <= 5000 ->
     0 < recovery_amount NEW < 10 ^ 12 ->
     (forall pd, payment_date NEW = Some pd -> recovery_date NEW <= pd) ->
     recovery_constraints (calculate_revenue_share d NEW) = Ok tt /\
     amounts_sum (calculate_revenue_share d NEW)) /\
  ((forall id t, recovery_transactions d !! id = Some t -> amounts_sum t) ->
   forall id t, recovery_transactions (run d st now) !! id = Some t -> amounts_sum t) /\
  (recovery_transactions d = ∅ ->
   forall l id t, recovery_transactions (run_all d l) !! id = Some t -> amounts_sum t).
Proof.
  split; [intros; by eapply calculate_revenue_share_sum|].
  split.
  { intros NEW p Hp Hr Ha Hd.
    pose proof (calculate_revenue_share_accepted d NEW p Hp Hr Ha Hd) as C.
    split; [exact C|]. by apply recovery_constraints_sum. }
  split; [apply run_amounts_sum|].
  intros He l. apply run_all_amounts_sum.
  intros id t L. rewrite He, lookup_empty in L. discriminate.
Qed.

Lemma recovery_amounts_sum_invariant_witness :
  recovery_transactions
    (run sample_db (InsertRecoveryTransaction 5%N (recovery_60000 (Some 3333) pending)) 0)
    !! 5%N
  = Some (set_amounts (Some 1999800) (Some 4000200) (recovery_60000 (Some 3333) pending))
  /\ amounts_sum (set_amounts (Some 1999800) (Some 4000200) (recovery_60000 (Some 3333) pending))
  /\ amounts_sum (calculate_revenue_share sample_db (recovery_60000 None pending)).
Proof.
  assert (L : recovery_transactions
    (run sample_db (InsertRecoveryTransaction 5%N (recovery_60000 (Some 3333) pending)) 0)
    !! 5%N
  = Some (set_amounts (Some 1999800) (Some 4000200) (recovery_60000 (Some 3333) pending))).
  { vm_compute. reflexivity. }
  destruct (recovery_amounts_sum_invariant sample_db
              (InsertRecoveryTransaction 5%N (recovery_60000 (Some 3333) pending)) 0)
    as (_ & T2 & T3 & _).
  split; [exact L|]. split.
  - refine (T3 _ 5%N _ L). intros id t H. vm_compute in H. discriminate.
  - refine (proj2 (T2 (recovery_60000 None pending) 2500 _ _ _ _)).
    + vm_compute. reflexivity.
    + lia.
    + vm_compute. split; reflexivity.
    + intros pd H. discriminate.
Defined.

Lemma calculate_revenue_share_fields d NEW :
  let r := calculate_revenue_share d NEW in
  agent_fee_percentage r = effective_fee_percentage d NEW /\
  agent_fee_amount r = fee_of (recovery_amount NEW) <$> effective_fee_percentage d NEW /\
  hospital_amount r = (fun f => recovery_amount NEW - f) <$> agent_fee_amount r.
Proof.
  unfold calculate_revenue_share, effective_fee_percentage.
  destruct (agent_fee_percentage NEW) as [p|] eqn:E; simpl; [by rewrite E|done].
Qed.

(** C2: the fee is [recovery_amount * percentage / 100] rounded half away
    from zero to two decimals, the hospital amount is the recovery amount
    minus that fee, and a row without percentage takes the hospital's
    configured one.  60000.00 at 25 % splits into 15000.00 and 45000.00. *)
Theorem revenue_share_split (d : db) (NEW : recovery_transaction) :
  let r := calculate_revenue_share d NEW in
  agent_fee_percentage r = effective_fee_percentage d NEW /\
  (agent_fee_percentage NEW = None ->
   agent_fee_percentage r = recovery_fee_percentage <$> hospitals d !! rt_hospital_id NEW) /\
  (forall p, effective_fee_percentage d NEW = Some p ->
     exists fee,
       agent_fee_amount r = Some fee /\
       nearest_half_away (recovery_amount NEW * p) 10000 fee /\
       hospital_amount r = Some (recovery_amount NEW - fee)) /\
  agent_fee_amount (calculate_revenue_share sample_db (recovery_60000 (Some 2500) pending))
    = Some 1500000 /\
  hospital_amount (calculate_revenue_share sample_db (recovery_60000 (Some 2500) pending))
    = Some 4500000.
Proof.
  cbv zeta. pose proof (calculate_revenue_share_fields d NEW) as (Hpct & Hf & Hh).
  split; [done|]. split.
  { intros E. rewrite Hpct. unfold effective_fee_percentage. by rewrite E. }
  split; [|by vm_compute].
  intros p Hp.
  rewrite Hp in Hf. rewrite Hf in Hh.
  exists (fee_of (recovery_amount NEW) p). split; [exact Hf|]. split; [|exact Hh].
  rewrite fee_of_round. apply round_div_nearest. lia.
Qed.

Lemma revenue_share_split_witness :
  effective_fee_percentage sample_db (recovery_60000 None processed) = Some 2500 /\
  exists fee,
    agent_fee_amount (calculate_revenue_share sample_db (recovery_60000 None processed))
      = Some fee /\
    nearest_half_away (6000000 * 2500) 10000 fee /\
    hospital_amount (calculate_revenue_share sample_db (recovery_60000 None processed))
      = Some (6000000 - fee).
Proof.
  assert (E : effective_fee_percentage sample_db (recovery_60000 None processed) = Some 2500)
    by (vm_compute; reflexivity).
  split; [exact E|].
  exact (proj1 (proj2 (proj2 (revenue_share_split sample_db (recovery_60000 None processed))))
           2500 E).
Defined.

(** ** Claim status under the statements *)

(** A property of the status that the SET list keeps is kept by the
    update, for every claim of the table. *)
Lemma update_claims_status (P : claim_status_t -> Prop) d id cond set now d' cid c :
  update_claims d id cond set now = Ok d' ->
  claims d !! cid = Some c ->
  P (claim_status c) ->
  (cid = id -> cond c = true -> P (claim_status (set c))) ->
  exists c', claims d' !! cid = Some c' /\ P (claim_status c').
Proof.
  intros H L HP Hset. destruct (decide (cid = id)) as [->|Hne].
  - rewrite (update_claims_lookup _ _ _ _ _ _ _ H L).
    eexists; split; [done|].
    destruct (cond c) eqn:Ec; [|done].
    destruct (status_timestamp_fields now c (set c)) as (_&_&_&->&_). auto.
  - rewrite (update_claims_lookup_ne _ _ _ _ _ _ _ H Hne). eauto.
Qed.

Lemma auto_update_claim_status_on_denial_terminal d NEW now d' cid c :
  auto_update_claim_status_on_denial d NEW now = Ok d' ->
  claims d !! cid = Some c ->
  claim_status c = cs_recovered \/ claim_status c = cs_written_off ->
  claims d' !! cid = Some c.
Proof.
  unfold auto_update_claim_status_on_denial. intros H L Hs.
  destruct (decide (cid = denial_claim_id NEW)) as [->|Hne].
  - rewrite (update_claims_lookup _ _ _ _ _ _ _ H L).
    by destruct Hs as [-> | ->].
  - by rewrite (update_claims_lookup_ne _ _ _ _ _ _ _ H Hne).
Qed.

Lemma auto_update_claim_status_on_appeal_recovered d OLD NEW now d' cid c :
  auto_update_claim_status_on_appeal d OLD NEW now = Ok d' ->
  bool_decide (appeal_status NEW = submitted)
    && null_or_distinct (old_status OLD) submitted = false ->
  claims d !! cid = Some c ->
  claim_status c = cs_recovered ->
  exists c', claims d' !! cid = Some c' /\ claim_status c' = cs_recovered.
Proof.
  unfold auto_update_claim_status_on_appeal. intros H Hsub L Hs.
  rewrite Hsub in H. simpl in H.
  case_if_in H; [|injection H as <-; eauto].
  by eapply (update_claims_status (fun s => s = cs_recovered)).
Qed.

Lemma update_claim_on_recovery_recovered d NEW now d' cid c :
  update_claim_on_recovery d NEW now = Ok d' ->
  claims d !! cid = Some c ->
  claim_status c = cs_recovered ->
  exists c', claims d' !! cid = Some c' /\ claim_status c' = cs_recovered.
Proof.
  unfold update_claim_on_recovery. intros H L Hs.
  case_if_in H; [|injection H as <-; eauto].
  eapply (update_claims_status (fun s => s = cs_recovered)); eauto.
  intros _ _. simpl. rewrite Hs. by destruct (_ <=? _).
Qed.

Lemma exec_recovered d st now d' cid c :
  exec d st now = Ok d' ->
  submits_appeal d st = false ->
  claims d !! cid = Some c ->
  claim_status c = cs_recovered ->
  exists c', claims d' !! cid = Some c' /\ claim_status c' = cs_recovered.
Proof.
  destruct st as [i row|i row|i set|i row|i set ops]; simpl; intros H Hsub L Hs.
  - unfold insert_claim_denial in H. ok_inv H.
    exists c. split; [|done].
    eapply auto_update_claim_status_on_denial_terminal; eauto.
  - unfold insert_appeal in H. ok_inv H.
    eapply auto_update_claim_status_on_appeal_recovered; eauto.
    by rewrite Hsub.
  - unfold update_appeal in H.
    destruct (appeals d !! i) as [OLD|]; [|injection H as <-; eauto].
    ok_inv H.
    apply update_knowledge_graph_from_appeal_frame in H as (_&E&_). rewrite E.
    refine (auto_update_claim_status_on_appeal_recovered _ _ _ _ _ _ _ Hok1 _ _ Hs).
    + simpl. destruct (bool_decide (appeal_status (set OLD) = submitted)); [|done].
      simpl in *. by destruct (bool_decide (appeal_status OLD = submitted)).
    + match goal with
      | |- context [notify_on_appeal_status_change ?a ?b ?c ?e] =>
          destruct (notify_on_appeal_status_change_frame a b c e) as (_&->&_)
      end. done.
  - unfold insert_recovery_transaction in H. ok_inv H.
    case_if_in H; [|injection H as <-; eauto].
    eapply update_claim_on_recovery_recovered; eauto.
  - unfold update_recovery_transaction in H.
    destruct (recovery_transactions d !! i) as [OLD|]; [|injection H as <-; eauto].
    ok_inv H.
    case_if_in H; [|injection H as <-; eauto].
    eapply update_claim_on_recovery_recovered; eauto.
Qed.

Lemma insert_claim_denial_terminal d id row now c :
  claims d !! denial_claim_id row = Some c ->
  claim_status c = cs_recovered \/ claim_status c = cs_written_off ->
  claim_denials_constraints row = Ok tt ->
  claim_denials d !! id = None ->
  insert_claim_denial d id row now
  = Ok (with_claim_denials d (<[id := row]> (claim_denials d))).
Proof.
  intros L Hs C F. unfold insert_claim_denial. rewrite C. simpl.
  rewrite bool_decide_eq_true_2 by done. simpl.
  unfold references. rewrite bool_decide_eq_true_2 by eauto. simpl.
  unfold auto_update_claim_status_on_denial, update_claims. simpl. rewrite L.
  by destruct Hs as [-> | ->].
Qed.

(** C3, as the triggers have it: a denial recorded on a claim in status
    recovered or written_off is stored and leaves every field of the claim
    as it was, and a recovered claim stays recovered under every statement
    that is not an appeal submission. *)
Theorem terminal_status_kept (d : db) (st : statement) (now : timestamp)
    (cid : uuid) (c : claim) :
  claims d !! cid = Some c ->
  (claim_status c = cs_recovered \/ claim_status c = cs_written_off ->
   forall id row, st = InsertClaimDenial id row ->
     claims (run d st now) !! cid = Some c /\
     (denial_claim_id row = cid ->
      claim_denials_constraints row = Ok tt ->
      claim_denials d !! id = None ->
      exists d', exec d st now = Ok d' /\ claims d' = claims d /\
                 claim_denials d' !! id = Some row)) /\
  (claim_status c = cs_recovered -> submits_appeal d st = false ->
   exists c', claims (run d st now) !! cid = Some c' /\ claim_status c' = cs_recovered).
Proof.
  intros L. unfold run. split.
  - intros Hs id row ->. simpl. split.
    + destruct (insert_claim_denial d id row now) as [d'|e] eqn:E; [|done].
      unfold insert_claim_denial in E. ok_inv E.
      eapply auto_update_claim_status_on_denial_terminal; eauto.
    + intros <- C F. rewrite (insert_claim_denial_terminal _ _ _ _ _ L Hs C F).
      eexists. split; [done|]. split; [done|]. simpl. apply lookup_insert_eq.
  - intros Hs Hsub. destruct (exec d st now) as [d'|e] eqn:E; [|eauto].
    eapply exec_recovered; eauto.
Qed.

Lemma terminal_status_kept_witness :
  claims (db_with_claim recovered_claim) !! 1%N = Some recovered_claim /\
  claims (run (db_with_claim recovered_claim) (InsertClaimDenial 3%N denial_125000) 9)
    !! 1%N = Some recovered_claim /\
  exists c',
    claims (run (db_with_claim recovered_claim) (InsertClaimDenial 3%N denial_125000) 9)
      !! 1%N = Some c' /\ claim_status c' = cs_recovered.
Proof.
  assert (L : claims (db_with_claim recovered_claim) !! 1%N = Some recovered_claim)
    by (vm_compute; reflexivity).
  split; [exact L|].
  destruct (terminal_status_kept (db_with_claim recovered_claim)
              (InsertClaimDenial 3%N denial_125000) 9 1%N recovered_claim L) as [T1 T2].
  split.
  - apply (proj1 (T1 (or_introl eq_refl) 3%N denial_125000 eq_refl)).
  - apply (T2 eq_refl eq_refl).
Defined.

(** C3 as stated fails: an appeal submitted on a recovered claim is
    accepted, and the claim goes back to [appealed]. *)
Lemma appeal_submitted_reopens_recovered_claim :
  claim_status recovered_claim = cs_recovered /\
  is_ok (exec (db_with_claim recovered_claim)
           (InsertAppeal 10%N (appeal_of submitted None)) 9) = true /\
  claim_status <$>
    claims (run (db_with_claim recovered_claim)
              (InsertAppeal 10%N (appeal_of submitted None)) 9) !! 1%N
  = Some cs_appealed.
Proof. vm_compute. repeat split; reflexivity. Qed.

(** ** Recovery applied to the claim *)





(** ** What the constraints of [claims] give after every statement *)

Section ClaimsForall.

Variable P : claim -> Prop.
Hypothesis constraints_P : forall c, claims_constraints c = Ok tt -> P c.

Lemma update_claims_Forall d id cond set now d' :
  update_claims d id cond set now = Ok d' ->
  (forall i c, claims d !! i = Some c -> P c) ->
  forall i c, claims d' !! i = Some c -> P c.
Proof using constraints_P.
  intros H Hall i c L. destruct (decide (i = id)) as [->|Hne].
  - destruct (update_claims_constraints _ _ _ _ _ _ _ H L) as [L0|C]; eauto.
  - rewrite (update_claims_lookup_ne _ _ _ _ _ _ _ H Hne) in L. eauto.
Qed.

Lemma auto_update_claim_status_on_appeal_Forall d OLD NEW now d' :
  auto_update_claim_status_on_appeal d OLD NEW now = Ok d' ->
  (forall i c, claims d !! i = Some c -> P c) ->
  forall i c, claims d' !! i = Some c -> P c.
Proof using constraints_P.
  unfold auto_update_claim_status_on_appeal. intros H Hall.
  apply rbind_Ok in H as (d1 & H1 & H2).
  assert (Hall1 : forall i c, claims d1 !! i = Some c -> P c).
  { case_if_in H1; [by eapply update_claims_Forall|]. by injection H1 as <-. }
  case_if_in H2; [by eapply update_claims_Forall|]. by injection H2 as <-.
Qed.

Lemma update_claim_on_recovery_Forall d NEW now d' :
  update_claim_on_recovery d NEW now = Ok d' ->
  (forall i c, claims d !! i = Some c -> P c) ->
  forall i c, claims d' !! i = Some c -> P c.
Proof using constraints_P.
  unfold update_claim_on_recovery. intros H Hall.
  case_if_in H; [by eapply update_claims_Forall|]. by injection H as <-.
Qed.

Lemma exec_claims_Forall d st now d' :
  exec d st now = Ok d' ->
  (forall i c, claims d !! i = Some c -> P c) ->
  forall i c, claims d' !! i = Some c -> P c.
Proof using constraints_P.
  destruct st as [i row|i row|i set|i row|i set ops]; simpl; intros H Hall.
  - unfold insert_claim_denial in H. ok_inv H.
    by eapply update_claims_Forall.
  - unfold insert_appeal in H. ok_inv H.
    by eapply auto_update_claim_status_on_appeal_Forall.
  - unfold update_appeal in H.
    destruct (appeals d !! i) as [OLD|]; [|by injection H as <-].
    ok_inv H.
    apply update_knowledge_graph_from_appeal_frame in H as (_&E&_). rewrite E.
    eapply auto_update_claim_status_on_appeal_Forall; [exact Hok1|].
    match goal with
    | |- context [notify_on_appeal_status_change ?a ?b ?c ?e] =>
        destruct (notify_on_appeal_status_change_frame a b c e) as (_&->&_)
    end. exact Hall.
  - unfold insert_recovery_transaction in H. ok_inv H.
    case_if_in H; [by eapply update_claim_on_recovery_Forall|]. by injection H as <-.
  - unfold update_recovery_transaction in H.
    destruct (recovery_transactions d !! i) as [OLD|]; [|by injection H as <-].
    ok_inv H.
    case_if_in H; [by eapply update_claim_on_recovery_Forall|]. by injection H as <-.
Qed.

End ClaimsForall.

Lemma claims_constraints_paid_le c :
  claims_constraints c = Ok tt -> paid_amount c <= claimed_amount c.
Proof. unfold claims_constraints. intros H. ok_inv H. lia. Qed.

Lemma insert_recovery_transaction_stored d id row now d' :
  insert_recovery_transaction d id row now = Ok d' ->
  recovery_transactions d' !! id = Some (calculate_revenue_share d row).
Proof.
  unfold insert_recovery_transaction. intros H. ok_inv H.
  assert (Hrt : recovery_transactions d' =
                <[id := calculate_revenue_share d row]> (recovery_transactions d)).
  { case_if_in H.
    - by apply update_claim_on_recovery_frame in H as (_&_&_&E&_).
    - by injection H as <-. }
  rewrite Hrt. apply lookup_insert_eq.
Qed.

Lemma insert_recovery_transaction_duplicate d id row now :
  is_Some (recovery_transactions d !! id) ->
  exists e, insert_recovery_transaction d id row now = Err e.
Proof.
  intros [t Ht]. unfold insert_recovery_transaction.
  destruct (recovery_constraints _) as [[]|e]; simpl; [|eauto].
  rewrite bool_decide_eq_false_2 by congruence. simpl. eauto.
Qed.

Lemma run_paid_within_claimed d st now :
  paid_within_claimed d -> paid_within_claimed (run d st now).
Proof.
  intros Hinv. unfold run. destruct (exec d st now) as [d'|e] eqn:E; [|done].
  unfold paid_within_claimed.
  by apply (exec_claims_Forall _ claims_constraints_paid_le _ _ _ _ E).
Qed.

Lemma run_all_paid_within_claimed l d :
  paid_within_claimed d -> paid_within_claimed (run_all d l).
Proof.
  revert d. induction l as [|[st now] l IH]; intros d Hinv; [exact Hinv|].
  apply (IH (run d st now)). by apply run_paid_within_claimed.
Qed.

(** C5, as the schema has it: [paid_amount <= claimed_amount] holds after
    every statement and every sequence of statements (one that would
    exceed the claimed amount is rejected and rolled back); a recovery transaction inserted again under an id
    that is already stored is rejected with an error and the database,
    [paid_amount] included, stays as it was. *)
Theorem paid_amount_bounded_and_duplicate_rejected (d : db) (now : timestamp) :
  (forall st, paid_within_claimed d -> paid_within_claimed (run d st now)) /\
  (forall l, paid_within_claimed d -> paid_within_claimed (run_all d l)) /\
  (forall id row,
     is_Some (recovery_transactions d !! id) ->
     (exists e, exec d (InsertRecoveryTransaction id row) now = Err e) /\
     run d (InsertRecoveryTransaction id row) now = d) /\
  (forall id row d',
     exec d (InsertRecoveryTransaction id row) now = Ok d' ->
     forall row' now',
       is_ok (exec d' (InsertRecoveryTransaction id row') now') = false /\
       claims (run d' (InsertRecoveryTransaction id row') now') = claims d').
Proof.
  split; [intros st; apply run_paid_within_claimed|].
  split; [intros l; apply run_all_paid_within_claimed|]. split.
  - intros id row Hs.
    destruct (insert_recovery_transaction_duplicate d id row now Hs) as [e He].
    split; [by exists e|]. unfold run. simpl. by rewrite He.
  - intros id row d' H row' now'. simpl in H.
    apply insert_recovery_transaction_stored in H.
    destruct (insert_recovery_transaction_duplicate d' id row' now') as [e He]; [eauto|].
    unfold run. simpl. by rewrite He.
Qed.

Lemma paid_amount_bounded_and_duplicate_rejected_witness :
  paid_within_claimed
    (run sample_db (InsertRecoveryTransaction 5%N (recovery_60000 None processed)) 9) /\
  is_ok (exec
           (run sample_db (InsertRecoveryTransaction 5%N (recovery_60000 None processed)) 9)
           (InsertRecoveryTransaction 5%N (recovery_60000 None processed)) 10) = false.
Proof.
  destruct (paid_amount_bounded_and_duplicate_rejected sample_db 9) as (T1 & _ & _ & T3).
  split.
  - apply T1. intros id c H. change (claims sample_db) with ({[ 1%N := claim_125000 ]} : gmap uuid claim) in H.
    apply lookup_singleton_Some in H as [_ <-].
    vm_compute. discriminate.
  - apply (T3 5%N (recovery_60000 None processed)). vm_compute. reflexivity.
Defined.

(** C5 as stated fails: the replayed insert is an error, not a silent
    success, and setting [payment_status] to processed again on the stored
    transaction adds its amount a second time. *)
Lemma duplicate_recovery_not_idempotent :
  let d1 := run sample_db (InsertRecoveryTransaction 5%N (recovery_60000 None processed)) 9 in
  paid_amount <$> claims d1 !! 1%N = Some 6000000 /\
  exec d1 (InsertRecoveryTransaction 5%N (recovery_60000 None processed)) 10
    = Err unique_violation /\
  paid_amount <$>
    claims (run d1 (UpdateRecoveryTransaction 5%N (set_payment_status processed) true) 10)
      !! 1%N
  = Some 12000000.
Proof. vm_compute. repeat split; reflexivity. Qed.

(** ** Knowledge graph *)


Lemma success_rate_round p :
  0 < occurrence_count p ->
  success_rate p = Numeric.round_div (10000 * success_count p) (occurrence_count p).
Proof.
  intros Hn. unfold success_rate.
  rewrite (proj2 (Z.ltb_lt _ _)) by done.
  destruct (occurrence_count p) as [|n|n]; try lia.
  unfold Numeric.ROUND, Numeric.of_int.
  change (10 ^ Z.of_nat 4) with 10000.
  cbn -[Z.mul Z.add Numeric.round_div Pos.mul].
  rewrite !Pos2Z.inj_mul.
  replace (success_count p * 1 * 10000) with (10000 * success_count p) by lia.
  replace (1 * Z.pos n) with (Z.pos n) by lia. done.
Qed.

Lemma int4_Ok x y : Numeric.int4 x = Ok y -> y = x.
Proof. unfold Numeric.int4. intros H. ok_inv H. done. Qed.

Lemma div_Ok a b q : Numeric.div a b = Ok q -> q = (a / b)%Q.
Proof. unfold Numeric.div. destruct (Qeq_bool b 0); [discriminate|]. by intros [= <-]. Qed.

Lemma store_Ok p s q v : Numeric.store p s q = Ok v -> v = Numeric.ROUND q s.
Proof. unfold Numeric.store. intros H. ok_inv H. done. Qed.

Lemma kg_do_update_fields row NEW now r :
  kg_do_update row NEW now = Ok r ->
  occurrence_count r = occurrence_count row + 1 /\
  success_count r = success_count row + success_count_delta NEW /\
  total_recovery_amount r = total_recovery_amount row + coalesce_outcome NEW /\
  pattern_value r = pattern_value row /\
  match avg_recovery_amount row with
  | None => avg_recovery_amount r = None
  | Some a =>
      avg_recovery_amount r =
        Some (Numeric.ROUND
                ((Numeric.of_scaled 2 a * Numeric.of_int (occurrence_count row)
                  + Numeric.of_scaled 2 (coalesce_outcome NEW))
                 / Numeric.of_int (occurrence_count row + 1))%Q 2)
  end.
Proof.
  unfold kg_do_update. intros H. ok_inv H. subst r. simpl.
  apply int4_Ok in Hok, Hok0. subst a a0.
  repeat split.
  destruct (avg_recovery_amount row) as [v|].
  - ok_inv Hok1. subst a1. apply div_Ok in Hok. apply store_Ok in Hok0. by subst.
  - by injection Hok1 as <-.
Qed.


(** The upsert, row by row. *)
Lemma kg_upsert_lookup kg payer NEW now kg' :
  forall k : pattern_id, k = (payer, appeal_success_factor, pattern_key NEW) ->
  kg_upsert kg (Some payer) NEW now = Ok kg' ->
  (forall k', k' <> k -> kg' !! k' = kg !! k') /\
  exists row',
    kg' !! k = Some row' /\ kg_constraints row' = Ok tt /\
    match kg !! k with
    | None => row' = kg_values NEW now
    | Some row => kg_do_update row NEW now = Ok row'
    end.
Proof.
  unfold kg_upsert. intros k -> H. cbv zeta in H. ok_inv H. subst kg'. split.
  - intros k' Hne. by rewrite lookup_insert_ne.
  - exists a. rewrite lookup_insert_eq. split; [done|]. destruct a0. split; [done|].
    match goal with |- match ?x with _ => _ end => destruct x end;
      [done|]. by injection Hok as <-.
Qed.





(** ** Success counts *)

Lemma kg_upsert_success_within kg v NEW now kg' :
  kg_upsert kg v NEW now = Ok kg' ->
  (forall k row, kg !! k = Some row -> 0 <= success_count row <= occurrence_count row) ->
  forall k row, kg' !! k = Some row -> 0 <= success_count row <= occurrence_count row.
Proof.
  intros H Hall k row L. destruct v as [payer|]; [|discriminate].
  destruct (kg_upsert_lookup _ _ _ _ _ _ eq_refl H) as (Hne & row' & L' & _ & Hrow).
  destruct (decide (k = (payer, appeal_success_factor, pattern_key NEW))) as [->|Hk].
  - rewrite L' in L. injection L as <-.
    assert (Hd : 0 <= success_count_delta NEW <= 1).
    { unfold success_count_delta. destruct (appeal_in _ _); lia. }
    destruct (kg !! _) as [row|] eqn:E.
    + apply kg_do_update_fields in Hrow as (-> & -> & _).
      specialize (Hall _ _ E). lia.
    + subst row'. simpl. lia.
  - rewrite (Hne _ Hk) in L. eauto.
Qed.

Lemma exec_success_within d st now d' :
  exec d st now = Ok d' ->
  success_within_occurrences d -> success_within_occurrences d'.
Proof.
  unfold success_within_occurrences.
  destruct st as [i row|i row|i set|i row|i set ops]; simpl; intros H Hall.
  - unfold insert_claim_denial in H. ok_inv H.
    apply auto_update_claim_status_on_denial_frame in H as (_&_&_&_&E&_).
    by rewrite E.
  - unfold insert_appeal in H. ok_inv H.
    apply auto_update_claim_status_on_appeal_frame in H as (_&_&_&_&E&_).
    by rewrite E.
  - unfold update_appeal in H.
    destruct (appeals d !! i) as [OLD|]; [|by injection H as <-].
    ok_inv H.
    apply auto_update_claim_status_on_appeal_frame in Hok1 as (_&_&_&_&E2&_).
    match type of E2 with
    | context [notify_on_appeal_status_change ?a ?b ?c ?e] =>
        destruct (notify_on_appeal_status_change_frame a b c e) as (_&_&_&_&_&E1)
    end.
    simpl in E1. rewrite E1 in E2.
    unfold update_knowledge_graph_from_appeal in H.
    case_if_in H; [|injection H as <-; by rewrite E2].
    ok_inv H. subst d'. simpl. rewrite E2 in Hok1.
    by eapply kg_upsert_success_within.
  - unfold insert_recovery_transaction in H. ok_inv H.
    case_if_in H; [|by injection H as <-].
    apply update_claim_on_recovery_frame in H as (_&_&_&_&E&_). by rewrite E.
  - unfold update_recovery_transaction in H.
    destruct (recovery_transactions d !! i) as [OLD|]; [|by injection H as <-].
    ok_inv H.
    case_if_in H; [|by injection H as <-].
    apply update_claim_on_recovery_frame in H as (_&_&_&_&E&_). by rewrite E.
Qed.

Lemma run_success_within d st now :
  success_within_occurrences d -> success_within_occurrences (run d st now).
Proof.
  intros Hinv. unfold run. destruct (exec d st now) as [d'|e] eqn:E; [|done].
  by eapply exec_success_within.
Qed.

Lemma run_all_success_within l d :
  success_within_occurrences d -> success_within_occurrences (run_all d l).
Proof.
  revert d. induction l as [|[st now] l IH]; intros d Hinv; [exact Hinv|].
  apply (IH (run d st now)). by apply run_success_within.
Qed.

(** C7, as the table has it: [success_count <= occurrence_count] holds for
    every pattern after every statement, hence for every pattern the
    aggregator has built up from an empty table, and [success_rate] is the
    quotient of the two counts rounded half away from zero to four
    decimals, a function of the counts alone. *)
Theorem success_rate_from_counts (d : db) (st : statement) (now : timestamp) :
  (success_within_occurrences d -> success_within_occurrences (run d st now)) /\
  (payer_knowledge_graph d = ∅ -> forall l, success_within_occurrences (run_all d l)) /\
  (forall row, 0 < occurrence_count row ->
     nearest_half_away (10000 * success_count row) (occurrence_count row)
       (success_rate row)) /\
  (forall row row',
     success_count row = success_count row' ->
     occurrence_count row = occurrence_count row' ->
     success_rate row = success_rate row').
Proof.
  split; [apply run_success_within|]. split; [|split].
  - intros He l. apply run_all_success_within.
    intros k row L. rewrite He, lookup_empty in L. discriminate.
  - intros row Hocc. rewrite success_rate_round by done.
    by apply round_div_nearest.
  - intros row row' E1 E2. unfold success_rate. by rewrite E1, E2.
Qed.

Lemma success_rate_from_counts_witness :
  success_within_occurrences
    (run (run_all sample_db [(InsertAppeal 10%N (appeal_of draft None), 1)])
       (UpdateAppeal 10%N (set_appeal_status accepted)) 2) /\
  nearest_half_away (10000 * 1) 1 (success_rate (kg_values (appeal_of accepted None) 2)).
Proof.
  destruct (success_rate_from_counts
              (run_all sample_db [(InsertAppeal 10%N (appeal_of draft None), 1)])
              (UpdateAppeal 10%N (set_appeal_status accepted)) 2) as (T1 & _ & T2 & _).
  split.
  - apply T1. intros k row H. vm_compute in H. discriminate.
  - apply (T2 (kg_values (appeal_of accepted None) 2)). reflexivity.
Defined.

(** C7 as stated fails: with one success in three occurrences the stored
    rate is 0.3333, which is not one third. *)
Lemma success_rate_is_rounded :
  exists row,
    payer_knowledge_graph (run_all sample_db one_of_three_history) !! level_1_key
      = Some row /\
    success_count row = 1 /\ occurrence_count row = 3 /\
    success_rate row = 3333 /\
    success_rate row * occurrence_count row <> 10000 * success_count row.
Proof.
  vm_compute. eexists. split; [reflexivity|]. repeat split. discriminate.
Qed.

(** ** Appeals *)






Lemma insert_appeal_claim d id row now d' :
  insert_appeal d id row now = Ok d' ->
  appeal_status row = accepted \/ appeal_status row = partially_accepted ->
  exists c c',
    claims d !! appeal_claim_id row = Some c /\
    claims d' !! appeal_claim_id row = Some c' /\
    claim_status c' = cs_recovered /\
    approved_amount c' =
      (if bool_decide (appeal_status row = accepted)
       then Some (claimed_amount c) else outcome_amount row).
Proof.
  unfold insert_appeal. intros H Hs. ok_inv H.
  unfold appeals_foreign_keys, references in Hok1. ok_inv Hok1.
  match goal with
  | Hfk : bool_decide (is_Some (claims _ !! _)) = true |- _ =>
      apply bool_decide_eq_true in Hfk as [c L]
  end.
  unfold auto_update_claim_status_on_appeal in H.
  assert (E1 : bool_decide (appeal_status row = submitted) = false)
    by (destruct Hs as [-> | ->]; reflexivity).
  assert (E2 : appeal_in [accepted; partially_accepted] (appeal_status row) = true)
    by (destruct Hs as [-> | ->]; reflexivity).
  rewrite E1, E2 in H. simpl in H.
  pose proof (update_claims_lookup _ _ _ _ _ _ c H L) as L'. cbv beta iota in L'.
  destruct (status_timestamp_fields now c
              (set_approved_amount
                 (if bool_decide (appeal_status row = accepted)
                  then Some (claimed_amount c) else outcome_amount row)
                 (set_claim_status cs_recovered c))) as (_ & _ & Ea & Es & _).
  exists c. eexists. split; [exact L|]. split; [exact L'|]. split; [exact Es|exact Ea].
Qed.

(** C10: inserting an appeal never touches [payer_knowledge_graph],
    whatever its status; when the appeal is inserted as accepted or
    partially_accepted the claim trigger still runs, the owning claim
    becomes recovered and its approved amount is set (the claimed amount
    for accepted, the outcome amount for partially_accepted). *)
Theorem appeal_insert_skips_knowledge_graph (d : db) (id : uuid) (row : appeal)
    (now : timestamp) :
  payer_knowledge_graph (run d (InsertAppeal id row) now) = payer_knowledge_graph d /\
  (forall d',
     exec d (InsertAppeal id row) now = Ok d' ->
     appeals d' !! id = Some row /\
     payer_knowledge_graph d' = payer_knowledge_graph d /\
     (appeal_status row = accepted \/ appeal_status row = partially_accepted ->
      exists c c',
        claims d !! appeal_claim_id row = Some c /\
        claims d' !! appeal_claim_id row = Some c' /\
        claim_status c' = cs_recovered /\
        approved_amount c' =
          (if bool_decide (appeal_status row = accepted)
           then Some (claimed_amount c) else outcome_amount row))).
Proof.
  assert (F : forall d', insert_appeal d id row now = Ok d' ->
            appeals d' !! id = Some row /\
            payer_knowledge_graph d' = payer_knowledge_graph d).
  { intros d' H. unfold insert_appeal in H. ok_inv H.
    apply auto_update_claim_status_on_appeal_frame in H as (_&_&E1&_&E2&_).
    rewrite E1, E2. simpl. by rewrite lookup_insert_eq. }
  split.
  - unfold run. simpl. destruct (insert_appeal d id row now) as [d'|e] eqn:E; [|done].
    by apply F.
  - intros d' H. simpl in H. destruct (F d' H) as [F1 F2].
    split; [done|]. split; [done|]. intros Hs. by eapply insert_appeal_claim.
Qed.

Lemma appeal_insert_skips_knowledge_graph_witness :
  payer_knowledge_graph
    (run sample_db (InsertAppeal 10%N (appeal_of partially_accepted (Some 8000000))) 3)
  = ∅ /\
  exists c',
    claims (run sample_db (InsertAppeal 10%N (appeal_of partially_accepted (Some 8000000))) 3)
      !! 1%N = Some c' /\
    claim_status c' = cs_recovered /\
    approved_amount c' = Some 8000000.
Proof.
  destruct (appeal_insert_skips_knowledge_graph sample_db 10%N
              (appeal_of partially_accepted (Some 8000000)) 3) as [T1 T2].
  split; [exact T1|].
  destruct (exec sample_db (InsertAppeal 10%N (appeal_of partially_accepted (Some 8000000))) 3)
    as [d'|e] eqn:E; [|vm_compute in E; discriminate].
  destruct (T2 d' eq_refl) as (_ & _ & T3).
  destruct (T3 (or_intror eq_refl)) as (c & c' & L & L' & Es & Ea).
  exists c'. unfold run. rewrite E. split; [exact L'|]. split; [exact Es|exact Ea].
Defined.

(** ** Concurrent updates of one pattern *)









(** Run alone, the three steps are the trigger function. *)
Lemma single_session_is_trigger d OLD NEW now d' :
  update_knowledge_graph_from_appeal d OLD NEW now = Ok d' ->
  interleave d [invoke OLD NEW now] [0; 0; 0]%nat
  = (d', [at_pc (invoke OLD NEW now) returned]).
Proof.
  unfold update_knowledge_graph_from_appeal. intros H. simpl. unfold step at 1. simpl.
  destruct (reaches_final_status OLD NEW); simpl.
  - ok_inv H. subst d'. unfold step. simpl. by rewrite Hok.
  - by injection H as <-.
Qed.

(** * Further properties of the triggers *)

(** Membership of a constructor in a literal list, and its refutation. *)
Ltac in_list :=
  repeat first [apply list_elem_of_here | apply list_elem_of_further].

Ltac not_in_list H :=
  repeat (apply elem_of_cons in H as [H|H]; [discriminate|]);
  by apply elem_of_nil in H.

(** ** Which claim a statement changes, and how *)

Lemma rbind_ret {A} (r : result A) : rbind r Ok = r.
Proof. by destruct r. Qed.

(** The two branches of the appeal trigger exclude each other: the
    function is a single update of the claim. *)
Lemma auto_update_claim_status_on_appeal_one d OLD NEW now :
  auto_update_claim_status_on_appeal d OLD NEW now =
  if bool_decide (appeal_status NEW = submitted)
     && null_or_distinct (old_status OLD) submitted
  then update_claims d (appeal_claim_id NEW) (fun _ => true)
         (set_claim_status cs_appealed) now
  else if appeal_in [accepted; partially_accepted] (appeal_status NEW)
          && null_or_not_in (old_status OLD) [accepted; partially_accepted]
  then update_claims d (appeal_claim_id NEW) (fun _ => true)
         (fun c =>
            set_approved_amount
              (if bool_decide (appeal_status NEW = accepted)
               then Some (claimed_amount c) else outcome_amount NEW)
              (set_claim_status cs_recovered c))
         now
  else Ok d.
Proof.
  unfold auto_update_claim_status_on_appeal.
  destruct (bool_decide (appeal_status NEW = submitted)) eqn:E1; simpl; [|done].
  apply bool_decide_eq_true in E1.
  destruct (null_or_distinct (old_status OLD) submitted); simpl.
  - rewrite E1. simpl. apply rbind_ret.
  - rewrite E1. done.
Qed.

Lemma update_claims_cases d id cond set now d' :
  update_claims d id cond set now = Ok d' ->
  forall cid,
    claims d' !! cid = claims d !! cid \/
    (cid = id /\ exists c, claims d !! cid = Some c /\ cond c = true /\
                           claims d' !! cid = Some (stamped now c (set c))).
Proof.
  intros H cid. destruct (decide (cid = id)) as [->|Hne].
  - destruct (claims d !! id) as [c|] eqn:L.
    + rewrite (update_claims_lookup _ _ _ _ _ _ _ H L).
      destruct (cond c) eqn:Ec; [right|by left]. split; [done|]. by exists c.
    + left. unfold update_claims in H. rewrite L in H. by injection H as <-.
  - left. by eapply update_claims_lookup_ne.
Qed.

Lemma calculate_revenue_share_claim d row :
  rt_claim_id (calculate_revenue_share d row) = rt_claim_id row.
Proof. unfold calculate_revenue_share. by destruct (agent_fee_percentage row). Qed.

(** Every statement leaves each claim as it was, except the claim it
    refers to, which it may rewrite through one UPDATE whose SET list
    keeps the claimed amount, the payer and the hospital. *)
Lemma exec_claims_cases d st now d' :
  exec d st now = Ok d' ->
  forall cid,
    claims d' !! cid = claims d !! cid \/
    (claim_of d st = Some cid /\
     exists c c1, claims d !! cid = Some c /\ keeps_identity c c1 /\
                  claims d' !! cid = Some (stamped now c c1)).
Proof.
  assert (K : forall d0 id cond set d1,
            update_claims d0 id cond set now = Ok d1 ->
            (forall c, keeps_identity c (set c)) ->
            forall cid,
              claims d1 !! cid = claims d0 !! cid \/
              (Some id = Some cid /\
               exists c c1, claims d0 !! cid = Some c /\ keeps_identity c c1 /\
                            claims d1 !! cid = Some (stamped now c c1))).
  { intros d0 id cond set d1 H Hk cid.
    destruct (update_claims_cases _ _ _ _ _ _ H cid) as [E|(-> & c & L & _ & L')];
      [by left|right]. split; [done|]. exists c, (set c). auto. }
  assert (KA : forall d0 OLD NEW d1,
            auto_update_claim_status_on_appeal d0 OLD NEW now = Ok d1 ->
            forall cid,
              claims d1 !! cid = claims d0 !! cid \/
              (Some (appeal_claim_id NEW) = Some cid /\
               exists c c1, claims d0 !! cid = Some c /\ keeps_identity c c1 /\
                            claims d1 !! cid = Some (stamped now c c1))).
  { intros d0 OLD NEW d1 H. rewrite auto_update_claim_status_on_appeal_one in H.
    case_if_in H; [by eapply K|]. case_if_in H; [by eapply K|].
    injection H as <-. by left. }
  assert (KR : forall d0 NEW d1,
            update_claim_on_recovery d0 NEW now = Ok d1 ->
            forall cid,
              claims d1 !! cid = claims d0 !! cid \/
              (Some (rt_claim_id NEW) = Some cid /\
               exists c c1, claims d0 !! cid = Some c /\ keeps_identity c c1 /\
                            claims d1 !! cid = Some (stamped now c c1))).
  { intros d0 NEW d1 H. unfold update_claim_on_recovery in H.
    case_if_in H; [by eapply K|]. injection H as <-. by left. }
  destruct st as [i row|i row|i set|i row|i set ops]; simpl; intros H cid.
  - unfold insert_claim_denial in H. ok_inv H.
    by apply (K _ _ _ _ _ H).
  - unfold insert_appeal in H. ok_inv H. by apply (KA _ _ _ _ H).
  - unfold update_appeal in H.
    destruct (appeals d !! i) as [OLD|]; [|injection H as <-; by left].
    ok_inv H. apply update_knowledge_graph_from_appeal_frame in H as (_&E&_).
    rewrite E. simpl.
    destruct (notify_on_appeal_status_change_frame
                (with_appeals d (<[i:=set_appeal_updated_at now (set OLD)]> (appeals d)))
                OLD (set_appeal_updated_at now (set OLD)) i) as (_&En&_).
    simpl in En. destruct (KA _ _ _ _ Hok1 cid) as [E1|E1]; rewrite En in E1; auto.
  - unfold insert_recovery_transaction in H. ok_inv H.
    case_if_in H; [|injection H as <-; by left].
    rewrite <- (calculate_revenue_share_claim d row). by apply (KR _ _ _ H).
  - unfold update_recovery_transaction in H.
    destruct (recovery_transactions d !! i) as [OLD|]; [|injection H as <-; by left].
    ok_inv H. case_if_in H; [|injection H as <-; by left].
    simpl. destruct (KR _ _ _ H cid) as [E1|E1]; [by left|right].
    by destruct ops.
Qed.

Lemma exec_hospitals d st now d' :
  exec d st now = Ok d' -> hospitals d' = hospitals d.
Proof.
  destruct st as [i row|i row|i set|i row|i set ops]; simpl; intros H.
  - unfold insert_claim_denial in H. ok_inv H.
    by apply auto_update_claim_status_on_denial_frame in H as (E&_).
  - unfold insert_appeal in H. ok_inv H.
    by apply auto_update_claim_status_on_appeal_frame in H as (E&_).
  - unfold update_appeal in H.
    destruct (appeals d !! i) as [OLD|]; [|by injection H as <-].
    ok_inv H. apply update_knowledge_graph_from_appeal_frame in H as (E3&_).
    apply auto_update_claim_status_on_appeal_frame in Hok1 as (E2&_).
    rewrite E3, E2.
    match goal with
    | |- context [notify_on_appeal_status_change ?a ?b ?c ?e] =>
        destruct (notify_on_appeal_status_change_frame a b c e) as (->&_)
    end. done.
  - unfold insert_recovery_transaction in H. ok_inv H.
    case_if_in H; [|by injection H as <-].
    by apply update_claim_on_recovery_frame in H as (E&_).
  - unfold update_recovery_transaction in H.
    destruct (recovery_transactions d !! i) as [OLD|]; [|by injection H as <-].
    ok_inv H. case_if_in H; [|by injection H as <-].
    by apply update_claim_on_recovery_frame in H as (E&_).
Qed.

Lemma stamped_fields now c c1 :
  claimed_amount (stamped now c c1) = claimed_amount c1 /\
  paid_amount (stamped now c c1) = paid_amount c1 /\
  approved_amount (stamped now c c1) = approved_amount c1 /\
  claim_status (stamped now c c1) = claim_status c1 /\
  payer_id (stamped now c c1) = payer_id c1 /\
  claim_hospital_id (stamped now c c1) = claim_hospital_id c1 /\
  claim_updated_at (stamped now c c1) = now /\
  last_status_update (stamped now c c1) =
    (if decide (claim_status c = claim_status c1)
     then last_status_update c1 else now).
Proof.
  unfold stamped, update_claims_updated_at, update_claim_status_timestamp.
  destruct (decide _); simpl; done.
Qed.

(** X1: no statement creates or deletes a claim or touches the hospitals
    table; it never changes a claim's claimed amount, payer or hospital,
    and it leaves every claim other than the one it refers to exactly as
    it was. *)
Theorem statement_touches_one_claim (d : db) (st : statement) (now : timestamp) (d' : db) :
  exec d st now = Ok d' ->
  hospitals d' = hospitals d /\
  forall cid,
    match claims d !! cid with
    | None => claims d' !! cid = None
    | Some c =>
        exists c',
          claims d' !! cid = Some c' /\
          claimed_amount c' = claimed_amount c /\ payer_id c' = payer_id c /\
          claim_hospital_id c' = claim_hospital_id c /\
          (claim_of d st <> Some cid -> c' = c)
    end.
Proof.
  intros H. split; [by eapply exec_hospitals|]. intros cid.
  destruct (exec_claims_cases _ _ _ _ H cid) as [E|(Hc & c & c1 & L & (K1&K2&K3&_) & L')].
  - rewrite E. destruct (claims d !! cid) as [c|]; [|done]. exists c. auto.
  - rewrite L. eexists. split; [exact L'|].
    destruct (stamped_fields now c c1) as (-> & _ & _ & _ & -> & -> & _).
    split; [done|]. split; [done|]. split; [done|]. intros Hne. by destruct Hne.
Qed.

Lemma statement_touches_one_claim_witness :
  exists c',
    claims (run two_claims_db (InsertClaimDenial 3%N denial_125000) 9) !! 2%N = Some c' /\
    claimed_amount c' = 12500000 /\ payer_id c' = 7%N /\ claim_hospital_id c' = 1%N /\
    c' = claim_125000.
Proof.
  assert (E : exec two_claims_db (InsertClaimDenial 3%N denial_125000) 9
              = Ok (run two_claims_db (InsertClaimDenial 3%N denial_125000) 9))
    by (vm_compute; reflexivity).
  destruct (statement_touches_one_claim _ _ _ _ E) as [_ T].
  specialize (T 2%N).
  change (claims two_claims_db !! 2%N) with (Some claim_125000) in T.
  destruct T as (c' & L & E1 & E2 & E3 & E4).
  exists c'. split; [exact L|]. split; [exact E1|]. split; [exact E2|].
  split; [exact E3|]. apply E4. vm_compute. discriminate.
Defined.

(** X2: [last_status_update] follows the status.  After any statement a
    claim whose status differs from before carries the time of that
    statement, and a claim whose status is the same keeps its date, even
    when the statement rewrote its amounts. *)
Theorem status_date_tracks_status (d : db) (st : statement) (now : timestamp) (d' : db)
    (cid : uuid) (c c' : claim) :
  exec d st now = Ok d' ->
  claims d !! cid = Some c ->
  claims d' !! cid = Some c' ->
  (claim_status c' <> claim_status c -> last_status_update c' = now) /\
  (claim_status c' = claim_status c -> last_status_update c' = last_status_update c).
Proof.
  intros H L L'.
  destruct (exec_claims_cases _ _ _ _ H cid) as [E|(_ & c0 & c1 & L0 & (_&_&_&K4) & L1)].
  - rewrite E, L in L'. injection L' as <-. split; [by intros []|done].
  - rewrite L0 in L. injection L as ->. rewrite L1 in L'. injection L' as <-.
    destruct (stamped_fields now c c1) as (_ & _ & _ & -> & _ & _ & _ & ->).
    destruct (decide (claim_status c = claim_status c1)) as [Es|Es].
    + split; [by intros []|]. by rewrite K4.
    + split; [done|]. intros Es'. by destruct Es.
Qed.

Lemma status_date_tracks_status_witness :
  (last_status_update <$> claims denied_db !! 1%N) = Some 9 /\
  (last_status_update <$>
     claims (run denied_db (InsertRecoveryTransaction 5%N (recovery_60000 None processed)) 20)
       !! 1%N) = Some 9.
Proof.
  assert (E1 : exec sample_db (InsertClaimDenial 3%N denial_125000) 9 = Ok denied_db)
    by (vm_compute; reflexivity).
  assert (E2 : exec denied_db (InsertRecoveryTransaction 5%N (recovery_60000 None processed)) 20
               = Ok (run denied_db
                       (InsertRecoveryTransaction 5%N (recovery_60000 None processed)) 20))
    by (vm_compute; reflexivity).
  destruct (claims denied_db !! 1%N) as [c1|] eqn:L1; [|vm_compute in L1; discriminate].
  destruct (claims (run denied_db
              (InsertRecoveryTransaction 5%N (recovery_60000 None processed)) 20) !! 1%N)
    as [c2|] eqn:L2; [|vm_compute in L2; discriminate].
  assert (L0 : claims sample_db !! 1%N = Some claim_125000) by (vm_compute; reflexivity).
  destruct (status_date_tracks_status _ _ _ _ _ _ _ E1 L0 L1) as [T1 _].
  destruct (status_date_tracks_status _ _ _ _ _ _ _ E2 L1 L2) as [_ T2].
  simpl. split.
  - f_equal. apply T1. vm_compute in L1. injection L1 as <-. vm_compute. discriminate.
  - f_equal. rewrite T2.
    + apply T1. vm_compute in L1. injection L1 as <-. vm_compute. discriminate.
    + vm_compute in L1, L2. injection L1 as <-. injection L2 as <-. reflexivity.
Defined.

(** ** Denials *)




(** ** Notifications *)

Lemma notify_on_appeal_status_change_notifications d OLD NEW id :
  notifications (notify_on_appeal_status_change d OLD NEW id) =
  if bool_decide (appeal_status NEW <> appeal_status OLD
                  /\ appeal_status NEW ∈ notified_status)
  then notifications d ++
       [{| n_hospital_id := claim_hospital_id <$> claims d !! appeal_claim_id NEW;
           n_type := match appeal_status NEW with
                     | submitted => nt_appeal_submitted
                     | rejected => nt_appeal_rejected
                     | additional_info_requested => nt_action_required
                     | _ => nt_appeal_accepted
                     end;
           n_severity := match appeal_status NEW with
                         | accepted | partially_accepted => sev_success
                         | rejected => sev_error
                         | additional_info_requested => sev_warning
                         | _ => sev_info
                         end;
           n_appeal_id := id; n_claim_id := appeal_claim_id NEW |}]
  else notifications d.
Proof.
  unfold notify_on_appeal_status_change.
  destruct (decide (appeal_status NEW = appeal_status OLD)) as [E|E].
  - rewrite (bool_decide_eq_true_2 _ E).
    rewrite bool_decide_eq_false_2; [done|]. intros [Hne _]. by destruct Hne.
  - rewrite (bool_decide_eq_false_2 _ E).
    destruct (appeal_status NEW) eqn:Es; simpl.
    all: first
      [ rewrite bool_decide_eq_true_2;
          [reflexivity|split; [done|unfold notified_status; in_list]]
      | rewrite bool_decide_eq_false_2;
          [reflexivity|intros [_ Hin]; unfold notified_status in Hin; not_in_list Hin] ].
Qed.

Lemma exec_notifications d st now d' :
  exec d st now = Ok d' ->
  match st with
  | UpdateAppeal id set =>
      match appeals d !! id with
      | None => notifications d' = notifications d
      | Some OLD =>
          notifications d' =
          notifications
            (notify_on_appeal_status_change
               (with_appeals d (<[id := set_appeal_updated_at now (set OLD)]> (appeals d)))
               OLD (set_appeal_updated_at now (set OLD)) id)
      end
  | _ => notifications d' = notifications d
  end.
Proof.
  destruct st as [i row|i row|i set|i row|i set ops]; simpl; intros H.
  - unfold insert_claim_denial in H. ok_inv H.
    by apply auto_update_claim_status_on_denial_frame in H as (_&_&_&_&_&E).
  - unfold insert_appeal in H. ok_inv H.
    by apply auto_update_claim_status_on_appeal_frame in H as (_&_&_&_&_&E).
  - destruct (appeals d !! i) as [OLD|] eqn:L; unfold update_appeal in H; rewrite L in H;
      [|by injection H as <-].
    ok_inv H. apply update_knowledge_graph_from_appeal_frame in H as (_&_&_&_&_&E3).
    apply auto_update_claim_status_on_appeal_frame in Hok1 as (_&_&_&_&_&E2).
    by rewrite E3, E2.
  - unfold insert_recovery_transaction in H. ok_inv H.
    case_if_in H; [|by injection H as <-].
    by apply update_claim_on_recovery_frame in H as (_&_&_&_&_&E).
  - unfold update_recovery_transaction in H.
    destruct (recovery_transactions d !! i) as [OLD|]; [|by injection H as <-].
    ok_inv H. case_if_in H; [|by injection H as <-].
    by apply update_claim_on_recovery_frame in H as (_&_&_&_&_&E).
Qed.

(** X4: only an update of an appeal writes notifications, and it writes
    exactly one when it changes the status to submitted, accepted,
    partially_accepted, rejected or additional_info_requested, addressed
    to the hospital of the appeal's claim, and none otherwise: a change to
    draft, under_review or withdrawn is silent, and so are the insertion
    of an appeal and every statement on denials and recoveries. *)
Theorem notification_per_status_change (d : db) (st : statement) (now : timestamp)
    (d' : db) :
  exec d st now = Ok d' ->
  match st with
  | UpdateAppeal id set =>
      forall OLD, appeals d !! id = Some OLD ->
        let NEW := set OLD in
        (appeal_status NEW <> appeal_status OLD ->
         appeal_status NEW ∈ notified_status ->
         exists n,
           notifications d' = notifications d ++ [n] /\
           n_appeal_id n = id /\ n_claim_id n = appeal_claim_id NEW /\
           n_hospital_id n = claim_hospital_id <$> claims d !! appeal_claim_id NEW /\
           (n_severity n = sev_success <->
            appeal_status NEW = accepted \/ appeal_status NEW = partially_accepted)) /\
        (appeal_status NEW = appeal_status OLD \/ appeal_status NEW ∉ notified_status ->
         notifications d' = notifications d)
  | _ => notifications d' = notifications d
  end.
Proof.
  intros H. pose proof (exec_notifications _ _ _ _ H) as E.
  destruct st as [i row|i row|i set|i row|i set ops]; try exact E.
  intros OLD L NEW. rewrite L in E.
  rewrite notify_on_appeal_status_change_notifications in E. simpl in E. split.
  - intros Hne Hin. rewrite bool_decide_eq_true_2 in E by done.
    eexists. split; [exact E|]. simpl. split; [done|]. split; [done|]. split; [done|].
    fold NEW. destruct (appeal_status NEW); split; intros Hx; try discriminate;
      try (destruct Hx; discriminate); auto.
  - intros Hor. rewrite bool_decide_eq_false_2 in E; [done|].
    intros [Hne Hin]. destruct Hor as [Heq|Hnin]; [by destruct Hne|by destruct Hnin].
Qed.

Lemma notification_per_status_change_witness :
  exists n,
    notifications
      (run (run sample_db (InsertAppeal 10%N (appeal_of draft None)) 1)
         (UpdateAppeal 10%N (set_appeal_status rejected)) 2)
    = [] ++ [n] /\
    n_appeal_id n = 10%N /\ n_claim_id n = 1%N /\ n_hospital_id n = Some 1%N.
Proof.
  assert (E : exec (run sample_db (InsertAppeal 10%N (appeal_of draft None)) 1)
                (UpdateAppeal 10%N (set_appeal_status rejected)) 2
              = Ok (run (run sample_db (InsertAppeal 10%N (appeal_of draft None)) 1)
                      (UpdateAppeal 10%N (set_appeal_status rejected)) 2))
    by (vm_compute; reflexivity).
  pose proof (notification_per_status_change _ _ _ _ E) as T. cbv beta iota in T.
  destruct (T (appeal_of draft None)) as [T1 _]; [vm_compute; reflexivity|].
  destruct T1 as (n & En & E1 & E2 & E3 & _).
  - vm_compute. discriminate.
  - unfold notified_status. in_list.
  - exists n. split; [exact En|]. split; [exact E1|]. split; [exact E2|exact E3].
Defined.

(** ** Revenue share: bounds and monotonicity *)

Lemma fee_of_div amount pct :
  0 <= amount -> 0 <= pct -> fee_of amount pct = (2 * (amount * pct) + 10000) / 20000.
Proof. intros Ha Hp. rewrite fee_of_round, round_div_nonneg by nia. done. Qed.

Lemma fee_of_half amount pct :
  0 <= amount -> 0 <= pct <= 5000 -> 2 * fee_of amount pct <= amount + 1.
Proof.
  intros Ha Hp. rewrite fee_of_div by lia.
  pose proof (Z.mul_div_le (2 * (amount * pct) + 10000) 20000 ltac:(lia)). nia.
Qed.

(** X5: at a percentage between 0 and 50 the fee of a positive recovery
    is never negative and never exceeds the hospital's share by more than
    one hundredth; at 0 percent the hospital receives everything. *)
Theorem fee_never_exceeds_hospital_share (d : db) (NEW : recovery_transaction)
    (p fee hosp : Z) :
  effective_fee_percentage d NEW = Some p ->
  0 <= p <= 5000 ->
  0 < recovery_amount NEW ->
  agent_fee_amount (calculate_revenue_share d NEW) = Some fee ->
  hospital_amount (calculate_revenue_share d NEW) = Some hosp ->
  0 <= fee /\ 0 <= hosp /\ fee <= hosp + 1 /\ (p = 0 -> fee = 0 /\ hosp = recovery_amount NEW).
Proof.
  intros Hp Hr Ha Hf Hh.
  pose proof (calculate_revenue_share_fields d NEW) as (_ & Ef & Eh).
  rewrite Hp in Ef. rewrite Ef in Eh. rewrite Ef in Hf. rewrite Eh in Hh.
  injection Hf as <-. injection Hh as <-.
  pose proof (fee_of_bounds (recovery_amount NEW) p Ha Hr).
  pose proof (fee_of_half (recovery_amount NEW) p ltac:(lia) Hr).
  split; [lia|]. split; [lia|]. split; [lia|].
  intros ->. rewrite fee_of_div by lia.
  replace (2 * (recovery_amount NEW * 0) + 10000) with 10000 by lia.
  change (10000 / 20000) with 0. lia.
Qed.

Lemma fee_never_exceeds_hospital_share_witness :
  0 <= 1 /\ 0 <= 0 /\ 1 <= 0 + 1 /\ (5000 = 0 -> 1 = 0 /\ 0 = 1).
Proof.
  refine (fee_never_exceeds_hospital_share sample_db
            (set_recovery_amount 1 (recovery_60000 (Some 5000) pending)) 5000 1 0 _ _ _ _ _).
  - reflexivity.
  - lia.
  - reflexivity.
  - vm_compute. reflexivity.
  - vm_compute. reflexivity.
Defined.

(** X6: at a fixed percentage between 0 and 50, a larger recovery gives
    neither the agent nor the hospital less, and a larger percentage
    never lowers the fee. *)
Theorem revenue_share_monotone (a a' p p' : Z) :
  0 <= a <= a' -> 0 <= p <= p' -> p' <= 5000 ->
  fee_of a p <= fee_of a' p /\
  a - fee_of a p <= a' - fee_of a' p /\
  fee_of a p <= fee_of a p'.
Proof.
  intros Ha Hp Hp'. rewrite !fee_of_div by lia.
  assert (M : forall x y, 0 <= x <= y ->
              (2 * x + 10000) / 20000 <= (2 * y + 10000) / 20000).
  { intros x y Hxy. apply Z.div_le_mono; lia. }
  split; [apply M; nia|]. split; [|apply M; nia].
  pose proof (Z.div_mod (2 * (a * p) + 10000) 20000 ltac:(lia)) as E1.
  pose proof (Z.mod_pos_bound (2 * (a * p) + 10000) 20000 ltac:(lia)) as B1.
  pose proof (Z.div_mod (2 * (a' * p) + 10000) 20000 ltac:(lia)) as E2.
  pose proof (Z.mod_pos_bound (2 * (a' * p) + 10000) 20000 ltac:(lia)) as B2.
  set (q := (2 * (a * p) + 10000) / 20000) in *.
  set (q' := (2 * (a' * p) + 10000) / 20000) in *.
  assert (Hd : a' * p - a * p <= 5000 * (a' - a)) by nia.
  lia.
Qed.

Lemma revenue_share_monotone_witness :
  fee_of 1 2500 <= fee_of 3 2500 /\
  1 - fee_of 1 2500 <= 3 - fee_of 3 2500 /\
  fee_of 1 2500 <= fee_of 1 5000.
Proof. apply revenue_share_monotone; lia. Defined.

(** ** Recovery transactions: what is rejected and what is left alone *)

Lemma calculate_revenue_share_status d row :
  payment_status (calculate_revenue_share d row) = payment_status row.
Proof. unfold calculate_revenue_share. by destruct (agent_fee_percentage row). Qed.

Lemma recovery_constraints_fields t :
  recovery_constraints t = Ok tt ->
  exists pct fee hosp,
    agent_fee_percentage t = Some pct /\ agent_fee_amount t = Some fee /\
    hospital_amount t = Some hosp /\
    Numeric.fits 5 pct = true /\ Numeric.fits 12 fee = true /\
    Numeric.fits 12 hosp = true /\ 0 <= pct <= 5000 /\ 0 <= fee /\ 0 <= hosp /\
    fee + hosp = recovery_amount t /\
    opt_all (fun pd => recovery_date t <=? pd) (payment_date t) = true.
Proof.
  unfold recovery_constraints. intros H.
  destruct (agent_fee_percentage t) as [pct|], (agent_fee_amount t) as [fee|],
    (hospital_amount t) as [hosp|]; try discriminate.
  ok_inv H. exists pct, fee, hosp.
  repeat match goal with
         | H : _ && _ = true |- _ => apply andb_prop in H as [? ?]
         end.
  repeat split; try done; lia.
Qed.

(** X7: the fee is computed on INSERT only.  An UPDATE that assigns a
    different recovery amount and nothing else to a stored transaction is
    rejected by [check_amounts_sum]; the fee is not recomputed. *)
Theorem recovery_amount_update_rejected (d : db) (id : uuid) (t : recovery_transaction)
    (a' : Z) (now : timestamp) :
  recovery_transactions d !! id = Some t ->
  recovery_constraints t = Ok tt ->
  0 < a' < 10 ^ 12 ->
  a' <> recovery_amount t ->
  exec d (UpdateRecoveryTransaction id (set_recovery_amount a') false) now
  = Err (check_violation "check_amounts_sum").
Proof.
  intros L C Ha Hne. simpl. unfold update_recovery_transaction. rewrite L.
  destruct (recovery_constraints_fields t C)
    as (pct & fee & hosp & E1 & E2 & E3 & F1 & F2 & F3 & Hp & Hf & Hh & Hs & Hd).
  unfold recovery_constraints. simpl. rewrite E1, E2, E3.
  unfold Numeric.fits in *. change (10 ^ Z.of_nat 12) with (10 ^ 12) in *.
  rewrite F1, F2, F3.
  assert (G1 : (Z.abs a' <? 10 ^ 12) = true) by lia.
  assert (G2 : (0 <? a') = true) by lia.
  assert (G3 : (0 <=? pct) = true) by lia.
  assert (G4 : (pct <=? 5000) = true) by lia.
  assert (G5 : (0 <=? fee) = true) by lia.
  assert (G6 : (0 <=? hosp) = true) by lia.
  assert (G7 : (fee + hosp =? a') = false) by lia.
  rewrite G1, G2, G3, G4, G5, G6, G7. reflexivity.
Qed.

Lemma recovery_amount_update_rejected_witness :
  exec (run sample_db (InsertRecoveryTransaction 5%N (recovery_60000 None pending)) 9)
    (UpdateRecoveryTransaction 5%N (set_recovery_amount 7000000) false) 10
  = Err (check_violation "check_amounts_sum").
Proof.
  apply (recovery_amount_update_rejected _ 5%N
           (calculate_revenue_share sample_db (recovery_60000 None pending))).
  - vm_compute. reflexivity.
  - vm_compute. reflexivity.
  - lia.
  - vm_compute. discriminate.
Defined.

Lemma claims_constraints_overpaid c p s now1 now2 :
  claims_constraints c = Ok tt ->
  0 <= p < 10 ^ 12 ->
  claimed_amount c < p ->
  claims_constraints
    (update_claims_updated_at now1
       (update_claim_status_timestamp now2 c (set_claim_status s (set_paid_amount p c))))
  = Err (check_violation "check_paid_lte_claimed").
Proof.
  intros H Hp Hc. unfold claims_constraints in *.
  unfold update_claims_updated_at, update_claim_status_timestamp.
  destruct (decide _); simpl in *.
  all: ok_inv H.
  all: repeat match goal with
       | H : _ && _ = true |- _ => apply andb_prop in H as [? ?]
       end.
  all: unfold Numeric.fits in *; change (10 ^ Z.of_nat 12) with (10 ^ 12) in *.
  all: assert (F1 : (Z.abs p <? 10 ^ 12) = true) by lia; rewrite F1.
  all: assert (F2 : (0 <=? p) = true) by lia; rewrite F2.
  all: assert (F3 : (p <=? claimed_amount c) = false) by lia; rewrite F3.
  all: repeat match goal with H : ?b = true |- context [?b] => rewrite H end.
  all: done.
Qed.

(** X8: a processed recovery that would take the paid amount above the
    claimed amount is rejected by [check_paid_lte_claimed]; the statement
    is rolled back, so the transaction is not recorded either. *)
Theorem overpayment_rejected (d : db) (id : uuid) (row : recovery_transaction)
    (now : timestamp) (c : claim) :
  recovery_constraints (calculate_revenue_share d row) = Ok tt ->
  recovery_transactions d !! id = None ->
  recovery_foreign_keys d (calculate_revenue_share d row) = Ok tt ->
  payment_status row = processed ->
  claims d !! rt_claim_id row = Some c ->
  claims_constraints c = Ok tt ->
  paid_amount c + recovery_amount row < 10 ^ 12 ->
  claimed_amount c < paid_amount c + recovery_amount row ->
  exec d (InsertRecoveryTransaction id row) now
    = Err (check_violation "check_paid_lte_claimed") /\
  recovery_transactions (run d (InsertRecoveryTransaction id row) now) !! id = None.
Proof.
  intros C F K Hp L Cc Hfit Hover.
  assert (E : exec d (InsertRecoveryTransaction id row) now
              = Err (check_violation "check_paid_lte_claimed")).
  { unfold exec, insert_recovery_transaction. rewrite C.
    cbn -[calculate_revenue_share].
    rewrite (bool_decide_eq_true_2 _ F). cbn -[calculate_revenue_share].
    rewrite K. cbn -[calculate_revenue_share].
    rewrite calculate_revenue_share_status, (bool_decide_eq_true_2 _ Hp).
    unfold update_claim_on_recovery.
    rewrite calculate_revenue_share_status, (bool_decide_eq_true_2 _ Hp).
    unfold update_claims. cbn -[calculate_revenue_share claims_constraints
      update_claims_updated_at update_claim_status_timestamp].
    rewrite calculate_revenue_share_claim, L, calculate_revenue_share_amount.
    rewrite claims_constraints_overpaid; [done|done| |done].
    unfold claims_constraints in Cc. ok_inv Cc. lia. }
  split; [exact E|]. unfold run. by rewrite E.
Qed.

Lemma overpayment_rejected_witness :
  exec (db_with_claim recovered_claim)
    (InsertRecoveryTransaction 5%N (recovery_60000 None processed)) 9
    = Err (check_violation "check_paid_lte_claimed") /\
  recovery_transactions
    (run (db_with_claim recovered_claim)
       (InsertRecoveryTransaction 5%N (recovery_60000 None processed)) 9) !! 5%N = None.
Proof.
  apply (overpayment_rejected (db_with_claim recovered_claim) 5%N
           (recovery_60000 None processed) 9 recovered_claim);
    vm_compute; congruence.
Defined.

(** X9: the claim is only touched by a transaction that is processed and
    by a statement that assigns [payment_status].  Inserting a
    transaction in another status, updating one to another status, or
    updating other columns of a transaction, processed or not, leaves the
    claims table as it was. *)
Theorem unprocessed_recovery_leaves_claims (d : db) (st : statement) (now : timestamp)
    (d' : db) :
  exec d st now = Ok d' ->
  match st with
  | InsertRecoveryTransaction _ row =>
      payment_status row <> processed -> claims d' = claims d
  | UpdateRecoveryTransaction id set of_payment_status =>
      (of_payment_status = false ->
       claims d' = claims d /\
       (payment_status <$> recovery_transactions d' !! id)
       = (payment_status <$> recovery_transactions d !! id)) /\
      (forall OLD, recovery_transactions d !! id = Some OLD ->
         payment_status (set OLD) <> processed -> of_payment_status = true ->
         claims d' = claims d)
  | _ => True
  end.
Proof.
  destruct st as [i row|i row|i set|i row|i set ops]; simpl; try done; intros H.
  - intros Hne. unfold insert_recovery_transaction in H. ok_inv H.
    rewrite calculate_revenue_share_status, bool_decide_eq_false_2 in H by done.
    by injection H as <-.
  - unfold update_recovery_transaction in H.
    destruct (recovery_transactions d !! i) as [OLD|] eqn:L.
    + ok_inv H. split.
      * intros ->. simpl in H. injection H as <-. simpl.
        rewrite lookup_insert_eq. done.
      * intros OLD' [= <-] Hne ->. simpl in H.
        rewrite bool_decide_eq_false_2 in H by done. by injection H as <-.
    + injection H as <-. split; [by rewrite L|]. intros OLD' HO. discriminate.
Qed.

Lemma unprocessed_recovery_leaves_claims_witness :
  claims (run sample_db (InsertRecoveryTransaction 5%N (recovery_60000 None pending)) 9)
  = claims sample_db.
Proof.
  refine (unprocessed_recovery_leaves_claims sample_db
            (InsertRecoveryTransaction 5%N (recovery_60000 None pending)) 9 _ _ _).
  - vm_compute. reflexivity.
  - discriminate.
Defined.

(** ** Appeals: outcomes above the claim, and edits of a decided appeal *)

Lemma claims_constraints_overapproved c o now1 now2 :
  claims_constraints c = Ok tt ->
  0 <= o < 10 ^ 12 ->
  claimed_amount c < o ->
  claims_constraints
    (update_claims_updated_at now1
       (update_claim_status_timestamp now2 c
          (set_approved_amount (Some o) (set_claim_status cs_recovered c))))
  = Err (check_violation "check_approved_lte_claimed").
Proof.
  intros H Ho Hc. unfold claims_constraints in *.
  unfold update_claims_updated_at, update_claim_status_timestamp.
  destruct (decide _); simpl in *.
  all: ok_inv H.
  all: repeat match goal with
       | H : _ && _ = true |- _ => apply andb_prop in H as [? ?]
       end.
  all: unfold Numeric.fits in *; change (10 ^ Z.of_nat 12) with (10 ^ 12) in *.
  all: assert (F1 : (Z.abs o <? 10 ^ 12) = true) by lia; rewrite F1.
  all: assert (F2 : (0 <=? o) = true) by lia; rewrite F2.
  all: assert (F3 : (o <=? claimed_amount c) = false) by lia; rewrite F3.
  all: repeat match goal with H : ?b = true |- context [?b] => rewrite H end.
  all: done.
Qed.

(** X10: an appeal that arrives as partially_accepted with an outcome
    amount above the claimed amount cannot be stored: the claim trigger
    would set [approved_amount] to it, [check_approved_lte_claimed]
    rejects that, and the insertion of the appeal is rolled back. *)
Theorem partial_outcome_above_claim_rejected (d : db) (id : uuid) (row : appeal)
    (now : timestamp) (c : claim) (o : Z) :
  appeals_constraints row = Ok tt ->
  appeals d !! id = None ->
  appeals_foreign_keys d row = Ok tt ->
  appeal_status row = partially_accepted ->
  outcome_amount row = Some o ->
  claims d !! appeal_claim_id row = Some c ->
  claims_constraints c = Ok tt ->
  claimed_amount c < o ->
  exec d (InsertAppeal id row) now = Err (check_violation "check_approved_lte_claimed") /\
  run d (InsertAppeal id row) now = d.
Proof.
  intros C F K Hs Ho L Cc Hover.
  assert (Hfit : 0 <= o < 10 ^ 12).
  { unfold appeals_constraints in C. rewrite Ho in C. ok_inv C. simpl in *.
    unfold Numeric.fits in *. change (10 ^ Z.of_nat 12) with (10 ^ 12) in *. lia. }
  assert (E : exec d (InsertAppeal id row) now
              = Err (check_violation "check_approved_lte_claimed")).
  { unfold exec, insert_appeal. rewrite C. cbn [rbind].
    rewrite (bool_decide_eq_true_2 _ F). cbn [check rbind]. rewrite K. cbn [rbind].
    rewrite auto_update_claim_status_on_appeal_one, Hs. cbn [old_status fmap option_fmap option_map].
    change (bool_decide (partially_accepted = submitted)) with false.
    change (appeal_in [accepted; partially_accepted] partially_accepted) with true.
    change (bool_decide (partially_accepted = accepted)) with false.
    cbn [andb null_or_not_in]. unfold update_claims. cbn [claims with_appeals].
    rewrite L, Ho. by rewrite claims_constraints_overapproved. }
  split; [exact E|]. unfold run. by rewrite E.
Qed.

Lemma partial_outcome_above_claim_rejected_witness :
  exec sample_db (InsertAppeal 10%N (appeal_of partially_accepted (Some 12500001))) 9
    = Err (check_violation "check_approved_lte_claimed") /\
  run sample_db (InsertAppeal 10%N (appeal_of partially_accepted (Some 12500001))) 9
    = sample_db.
Proof.
  apply (partial_outcome_above_claim_rejected sample_db 10%N
           (appeal_of partially_accepted (Some 12500001)) 9 claim_125000 12500001);
    vm_compute; congruence.
Defined.

(** X11: once an appeal is accepted or partially_accepted, a later update
    of it that does not set it to submitted changes neither the claims
    table nor the knowledge graph: editing its outcome amount does not
    reach [approved_amount], and turning it into rejected neither reopens
    the claim nor is counted as a failure. *)
Theorem decided_appeal_edit_is_local (d : db) (id : uuid) (OLD : appeal)
    (set : appeal -> appeal) (now : timestamp) (d' : db) :
  appeals d !! id = Some OLD ->
  appeal_status OLD = accepted \/ appeal_status OLD = partially_accepted ->
  appeal_status (set OLD) <> submitted ->
  exec d (UpdateAppeal id set) now = Ok d' ->
  claims d' = claims d /\ payer_knowledge_graph d' = payer_knowledge_graph d.
Proof.
  intros L Hs Hne H. unfold exec, update_appeal in H. rewrite L in H. ok_inv H.
  rewrite auto_update_claim_status_on_appeal_one in Hok1.
  cbn [old_status fmap option_fmap option_map] in Hok1.
  change (appeal_status (set_appeal_updated_at now (set OLD)))
    with (appeal_status (set OLD)) in Hok1.
  rewrite (bool_decide_eq_false_2 _ Hne) in Hok1. cbn [andb] in Hok1.
  assert (G : null_or_not_in (Some (appeal_status OLD)) [accepted; partially_accepted]
              = false) by (destruct Hs as [-> | ->]; reflexivity).
  rewrite G, andb_false_r in Hok1. injection Hok1 as <-.
  unfold update_knowledge_graph_from_appeal, reaches_final_status in H.
  cbn [old_status fmap option_fmap option_map] in H.
  assert (G' : null_or_not_in (Some (appeal_status OLD)) final_status = false)
    by (destruct Hs as [-> | ->]; reflexivity).
  rewrite G', andb_false_r in H. injection H as <-.
  match goal with
  | |- context [notify_on_appeal_status_change ?a ?b ?c ?e] =>
      destruct (notify_on_appeal_status_change_frame a b c e) as (_&->&_&_&_&->)
  end. done.
Qed.

Lemma decided_appeal_edit_is_local_witness :
  let d := run sample_db (InsertAppeal 10%N (appeal_of accepted (Some 100))) 1 in
  claims (run d (UpdateAppeal 10%N (set_appeal_status rejected)) 2) = claims d /\
  payer_knowledge_graph (run d (UpdateAppeal 10%N (set_appeal_status rejected)) 2)
  = payer_knowledge_graph d.
Proof.
  refine (decided_appeal_edit_is_local
            (run sample_db (InsertAppeal 10%N (appeal_of accepted (Some 100))) 1)
            10%N (appeal_of accepted (Some 100)) (set_appeal_status rejected) 2 _ _ _ _ _).
  - vm_compute. reflexivity.
  - left. reflexivity.
  - discriminate.
  - vm_compute. reflexivity.
Defined.

(** ** Knowledge graph: what an update keeps and what it bounds *)

Lemma kg_do_update_frozen row NEW now r :
  kg_do_update row NEW now = Ok r ->
  confidence_level r = confidence_level row /\
  first_observed_at r = first_observed_at row /\
  last_observed_at r = now /\ kg_updated_at r = now.
Proof. unfold kg_do_update. intros H. ok_inv H. by subst r. Qed.

Lemma appeals_constraints_outcome a :
  appeals_constraints a = Ok tt -> 0 <= coalesce_outcome a.
Proof.
  unfold appeals_constraints, coalesce_outcome. intros H. ok_inv H.
  destruct (outcome_amount a); simpl in *; lia.
Qed.

Lemma success_count_delta_range NEW : 0 <= success_count_delta NEW <= 1.
Proof. unfold success_count_delta. destruct (appeal_in _ _); lia. Qed.

(** X12: a pattern row is never deleted and its learned content only
    accumulates: over any statement its occurrence count, success count
    and total never decrease, while its pattern value (the recorded
    latest_outcome included), its confidence level and its first
    observation time stay what they were when the row was created. *)
Theorem pattern_rows_accumulate (d : db) (st : statement) (now : timestamp) (d' : db)
    (k : pattern_id) (row : knowledge_pattern) :
  exec d st now = Ok d' ->
  payer_knowledge_graph d !! k = Some row ->
  exists row',
    payer_knowledge_graph d' !! k = Some row' /\
    pattern_value row' = pattern_value row /\
    confidence_level row' = confidence_level row /\
    first_observed_at row' = first_observed_at row /\
    occurrence_count row <= occurrence_count row' /\
    success_count row <= success_count row' /\
    total_recovery_amount row <= total_recovery_amount row'.
Proof.
  intros H L.
  assert (Same : payer_knowledge_graph d' = payer_knowledge_graph d ->
          exists row',
            payer_knowledge_graph d' !! k = Some row' /\
            pattern_value row' = pattern_value row /\
            confidence_level row' = confidence_level row /\
            first_observed_at row' = first_observed_at row /\
            occurrence_count row <= occurrence_count row' /\
            success_count row <= success_count row' /\
            total_recovery_amount row <= total_recovery_amount row').
  { intros ->. exists row. repeat split; try done; lia. }
  destruct st as [i r|i r|i set|i r|i set ops]; simpl in H.
  - apply Same. unfold insert_claim_denial in H. ok_inv H.
    by apply auto_update_claim_status_on_denial_frame in H as (_&_&_&_&E&_).
  - apply Same. unfold insert_appeal in H. ok_inv H.
    by apply auto_update_claim_status_on_appeal_frame in H as (_&_&_&_&E&_).
  - unfold update_appeal in H.
    destruct (appeals d !! i) as [OLD|]; [|apply Same; by injection H as <-].
    ok_inv H.
    apply auto_update_claim_status_on_appeal_frame in Hok1 as (_&_&_&_&E2&_).
    match type of E2 with
    | context [notify_on_appeal_status_change ?a ?b ?c ?e] =>
        destruct (notify_on_appeal_status_change_frame a b c e) as (_&_&_&_&_&E1)
    end.
    simpl in E1. rewrite E1 in E2.
    unfold update_knowledge_graph_from_appeal in H.
    case_if_in H; [|apply Same; injection H as <-; exact E2].
    ok_inv H. subst d'. cbn [payer_knowledge_graph with_payer_knowledge_graph].
    rewrite E2 in Hok1. destruct (payer_id <$> _) as [payer|]; [|discriminate].
    destruct (kg_upsert_lookup _ _ _ _ _ _ eq_refl Hok1) as (Hne & row' & L' & _ & Hrow).
    destruct (decide (k = (payer, appeal_success_factor,
                           pattern_key (set_appeal_updated_at now (set OLD)))))
      as [->|Hk].
    + rewrite L in Hrow. exists row'. split; [exact L'|].
      pose proof (kg_do_update_fields _ _ _ _ Hrow) as (-> & -> & -> & -> & _).
      pose proof (kg_do_update_frozen _ _ _ _ Hrow) as (-> & -> & _).
      destruct a. pose proof (appeals_constraints_outcome _ Hok).
      pose proof (success_count_delta_range (set_appeal_updated_at now (set OLD))).
      repeat split; try done; lia.
    + rewrite (Hne _ Hk). exists row. repeat split; try done; lia.
  - apply Same. unfold insert_recovery_transaction in H. ok_inv H.
    case_if_in H; [|by injection H as <-].
    by apply update_claim_on_recovery_frame in H as (_&_&_&_&E&_).
  - apply Same. unfold update_recovery_transaction in H.
    destruct (recovery_transactions d !! i) as [OLD|]; [|by injection H as <-].
    ok_inv H. case_if_in H; [|by injection H as <-].
    by apply update_claim_on_recovery_frame in H as (_&_&_&_&E&_).
Qed.

Lemma pattern_rows_accumulate_witness :
  let d := run_all sample_db
             [(InsertAppeal 10%N (appeal_of draft None), 1);
              (UpdateAppeal 10%N (set_appeal_status accepted), 2);
              (InsertAppeal 11%N (appeal_of draft None), 3)] in
  exists row',
    payer_knowledge_graph (run d (UpdateAppeal 11%N (set_appeal_status rejected)) 4)
      !! level_1_key = Some row' /\
    pv_latest_outcome (pattern_value row') = accepted /\
    confidence_level row' = 50 /\ first_observed_at row' = 2.
Proof.
  intros d.
  assert (E : exec d (UpdateAppeal 11%N (set_appeal_status rejected)) 4
              = Ok (run d (UpdateAppeal 11%N (set_appeal_status rejected)) 4))
    by (vm_compute; reflexivity).
  destruct (pattern_rows_accumulate d _ 4 _ level_1_key
              (kg_values (appeal_of accepted None) 2) E)
    as (row' & L & E1 & E2 & E3 & _); [vm_compute; reflexivity|].
  exists row'. split; [exact L|]. rewrite E1, E2, E3. repeat split.
Defined.

Lemma round_div_between n d lo hi :
  0 < d -> lo * d <= n <= hi * d -> lo <= Numeric.round_div n d <= hi.
Proof.
  intros Hd Hn. destruct (round_div_nearest n d Hd) as [Hr _].
  set (r := Numeric.round_div n d) in *.
  split.
  - destruct (Z_lt_le_dec r lo) as [Hlt|]; [exfalso|done].
    assert (d <= n - r * d) by nia. lia.
  - destruct (Z_lt_le_dec hi r) as [Hlt|]; [exfalso|done].
    assert (d <= r * d - n) by nia. lia.
Qed.



Lemma update_claims_payer d id cond set now d' :
  update_claims d id cond set now = Ok d' ->
  (forall c, payer_id (set c) = payer_id c) ->
  forall cid, payer_id <$> claims d' !! cid = payer_id <$> claims d !! cid.
Proof.
  intros H Hset cid.
  destruct (update_claims_cases _ _ _ _ _ _ H cid) as [->|(_ & c & L & _ & ->)]; [done|].
  rewrite L. cbn [fmap option_fmap option_map].
  destruct (stamped_fields now c (set c)) as (_&_&_&_&->&_).
  by rewrite Hset.
Qed.

Lemma auto_update_claim_status_on_appeal_payer d OLD NEW now d' :
  auto_update_claim_status_on_appeal d OLD NEW now = Ok d' ->
  forall cid, payer_id <$> claims d' !! cid = payer_id <$> claims d !! cid.
Proof.
  rewrite auto_update_claim_status_on_appeal_one. intros H.
  case_if_in H; [by eapply update_claims_payer|].
  case_if_in H; [by eapply update_claims_payer|]. by injection H as <-.
Qed.

(** X14: the occurrence count is a 32-bit integer.  Once a pattern has
    reached 2147483647 occurrences the next final outcome for its key
    fails with integer_out_of_range, and the update of the appeal that
    carried it is rolled back. *)
Theorem occurrence_count_overflow (d : db) (id : uuid) (OLD : appeal)
    (set : appeal -> appeal) (now : timestamp) (c : claim) (row : knowledge_pattern) :
  appeals d !! id = Some OLD ->
  let NEW := set_appeal_updated_at now (set OLD) in
  reaches_final_status (Some OLD) NEW = true ->
  claims d !! appeal_claim_id NEW = Some c ->
  payer_knowledge_graph d !! pattern_id_of c NEW = Some row ->
  2147483647 <= occurrence_count row ->
  update_knowledge_graph_from_appeal d (Some OLD) NEW now = Err integer_out_of_range /\
  (exists e, exec d (UpdateAppeal id set) now = Err e) /\
  run d (UpdateAppeal id set) now = d.
Proof.
  intros L NEW Hg Lc Lk Hocc.
  assert (U : forall d0,
              payer_id <$> claims d0 !! appeal_claim_id NEW = Some (payer_id c) ->
              payer_knowledge_graph d0 = payer_knowledge_graph d ->
              update_knowledge_graph_from_appeal d0 (Some OLD) NEW now
              = Err integer_out_of_range).
  { intros d0 Ec Ek. unfold update_knowledge_graph_from_appeal. rewrite Hg, Ec, Ek.
    unfold kg_upsert. cbv zeta. fold (pattern_id_of c NEW). rewrite Lk.
    unfold kg_do_update, Numeric.int4.
    assert (F : ((-2147483648 <=? occurrence_count row + 1)
                 && (occurrence_count row + 1 <=? 2147483647)) = false).
    { apply andb_false_intro2. lia. }
    rewrite F. reflexivity. }
  split; [apply U; [by rewrite Lc|done]|].
  assert (E : exists e, exec d (UpdateAppeal id set) now = Err e).
  { unfold exec, update_appeal. rewrite L. fold NEW.
    destruct (appeals_constraints NEW) as [[]|e]; [|by eexists].
    destruct (appeals_foreign_keys d NEW) as [[]|e]; [|by eexists].
    cbn [rbind].
    destruct (auto_update_claim_status_on_appeal _ _ _ _) as [d3|e] eqn:E3; [|by eexists].
    cbn [rbind].
    destruct (notify_on_appeal_status_change_frame
                (with_appeals d (<[id:=NEW]> (appeals d))) OLD NEW id)
      as (_&En1&_&_&_&En2).
    rewrite U; [by eexists| |].
    - rewrite (auto_update_claim_status_on_appeal_payer _ _ _ _ _ E3), En1.
      cbn [claims with_appeals]. by rewrite Lc.
    - apply auto_update_claim_status_on_appeal_frame in E3 as (_&_&_&_&E&_).
      by rewrite E, En2. }
  split; [exact E|]. destruct E as [e E]. unfold run. by rewrite E.
Qed.

Lemma occurrence_count_overflow_witness :
  let full := {| pattern_value := pattern_value (kg_values (appeal_of accepted None) 2);
                 occurrence_count := 2147483647; success_count := 1;
                 avg_recovery_amount := Some 0; total_recovery_amount := 0;
                 confidence_level := 50; first_observed_at := 2;
                 last_observed_at := 4; kg_updated_at := 4 |} in
  let d := with_payer_knowledge_graph
             (run sample_db (InsertAppeal 10%N (appeal_of draft None)) 1)
             {[ level_1_key := full ]} in
  run d (UpdateAppeal 10%N (set_appeal_status rejected)) 5 = d.
Proof.
  intros full d.
  refine (proj2 (proj2 (occurrence_count_overflow d 10%N (appeal_of draft None)
             (set_appeal_status rejected) 5 claim_125000 full _ _ _ _ _))).
  - vm_compute. reflexivity.
  - vm_compute. reflexivity.
  - vm_compute. reflexivity.
  - vm_compute. reflexivity.
  - vm_compute. discriminate.
Defined.

(** X15: outcomes are grouped by payer and appeal level and by nothing
    else: two appeals are counted under the same pattern exactly when
    their claims have the same payer and their levels are equal. *)
Theorem pattern_grouping (c c' : claim) (NEW NEW' : appeal) :
  pattern_id_of c NEW = pattern_id_of c' NEW' <->
  payer_id c = payer_id c' /\ appeal_level NEW = appeal_level NEW'.
Proof.
  unfold pattern_id_of, pattern_key. split.
  - intros [= Hp Hk]. split; [done|].
    change (pretty (appeal_level NEW) = pretty (appeal_level NEW')) in Hk.
    by apply (inj pretty) in Hk.
  - intros [-> ->]. done.
Qed.

(** X16: for a pattern with [0 <= success_count <= occurrence_count] and
    at least one occurrence the success rate lies between 0 and 1.0000, so
    it always fits its [decimal(5,4)] column; it is 0 with no success and
    1.0000 when every occurrence was a success. *)
Theorem success_rate_bounds (p : knowledge_pattern) :
  0 < occurrence_count p ->
  0 <= success_count p <= occurrence_count p ->
  0 <= success_rate p <= 10000 /\
  Numeric.fits 5 (success_rate p) = true /\
  (success_count p = 0 -> success_rate p = 0) /\
  (success_count p = occurrence_count p -> success_rate p = 10000).
Proof.
  intros Ho Hs. rewrite success_rate_round by done.
  assert (B : forall lo hi, lo * occurrence_count p <= 10000 * success_count p
                                      <= hi * occurrence_count p ->
              lo <= Numeric.round_div (10000 * success_count p) (occurrence_count p) <= hi).
  { intros lo hi. by apply round_div_between. }
  pose proof (B 0 10000 ltac:(nia)) as B0.
  split; [done|]. split.
  - unfold Numeric.fits. change (10 ^ Z.of_nat 5) with 100000. lia.
  - split; intros E.
    + pose proof (B 0 0 ltac:(nia)). lia.
    + pose proof (B 10000 10000 ltac:(nia)). lia.
Qed.

Lemma success_rate_bounds_witness :
  0 <= success_rate (kg_values (appeal_of rejected None) 2) <= 10000 /\
  Numeric.fits 5 (success_rate (kg_values (appeal_of rejected None) 2)) = true /\
  (0 = 0 -> success_rate (kg_values (appeal_of rejected None) 2) = 0) /\
  (0 = 1 -> success_rate (kg_values (appeal_of rejected None) 2) = 10000).
Proof.
  apply (success_rate_bounds (kg_values (appeal_of rejected None) 2)).
  - reflexivity.
  - vm_compute. split; discriminate.
Defined.

(** ** Concurrent updates: every additive column *)

Section AdditiveColumn.

(** A column [col] of the pattern row to which the upsert adds [delta] of
    the appeal. *)
Variable col : knowledge_pattern -> Z.
Variable delta : appeal -> Z.
Hypothesis values_col : forall NEW now, col (kg_values NEW now) = delta NEW.
Hypothesis do_update_col : forall row NEW now r,
  kg_do_update row NEW now = Ok r -> col r = col row + delta NEW.









End AdditiveColumn.



(** ** Views *)

Lemma rows_where_lookup {A} (cond : A -> bool) (m : gmap uuid A) x :
  x ∈ rows_where cond m -> exists id, m !! id = Some x.
Proof.
  unfold rows_where. intros Hin. apply list_elem_of_filter in Hin as [_ Hin].
  apply list_elem_of_fmap in Hin as ([id y] & -> & Hin).
  apply elem_of_map_to_list in Hin. by exists id.
Qed.

Lemma coalesce_sum_split (rows : list recovery_transaction) :
  Forall amounts_sum rows ->
  coalesce_sum agent_fee_amount rows + coalesce_sum hospital_amount rows
  = coalesce_sum (fun t => Some (recovery_amount t)) rows.
Proof.
  induction 1 as [|t rows (fee & hosp & Ef & Eh & Hs) _ IH]; simpl; [done|].
  rewrite Ef, Eh. simpl. lia.
Qed.

(** X18: on the dashboard the agent fees and the hospital's recovered
    amount of a hospital add up to its total recovery value, exactly,
    whatever statements have been run on a recovery table that started
    empty. *)
Theorem dashboard_revenue_share_adds_up (d : db) (h : uuid) :
  ((forall id t, recovery_transactions d !! id = Some t -> amounts_sum t) ->
   total_agent_fees d h + total_hospital_recovered d h = total_recovery_value d h) /\
  (recovery_transactions d = ∅ ->
   forall l,
     total_agent_fees (run_all d l) h + total_hospital_recovered (run_all d l) h
     = total_recovery_value (run_all d l) h).
Proof.
  assert (G : forall d0,
            (forall id t, recovery_transactions d0 !! id = Some t -> amounts_sum t) ->
            total_agent_fees d0 h + total_hospital_recovered d0 h
            = total_recovery_value d0 h).
  { intros d0 Hinv. apply coalesce_sum_split. apply Forall_forall. intros t Hin.
    apply rows_where_lookup in Hin as [id L]. by eapply Hinv. }
  split; [apply G|]. intros He l. apply G. apply run_all_amounts_sum.
  intros id t L. rewrite He, lookup_empty in L. discriminate.
Qed.

Lemma dashboard_revenue_share_adds_up_witness :
  let d := run_all sample_db
             [(InsertRecoveryTransaction 5%N (recovery_60000 None pending), 1);
              (InsertRecoveryTransaction 6%N
                 (set_recovery_amount 333 (recovery_60000 (Some 3333) pending)), 2)] in
  total_agent_fees d 1%N + total_hospital_recovered d 1%N = total_recovery_value d 1%N /\
  total_recovery_value d 1%N = 6000333.
Proof.
  intros d. split; [|vm_compute; reflexivity].
  apply (proj2 (dashboard_revenue_share_adds_up sample_db 1%N)). reflexivity.
Defined.












Lemma priority_score_closed a p e :
  (priority_score a p e ==
   Qmake (4 * a + 40000000 * default 50 p + 200000000 * (11 - default 5 e))%Z 100000000)%Q.
Proof.
  unfold priority_score, Numeric.of_scaled, Numeric.of_int, Qeq.
  change (10 ^ Z.of_nat 2) with 100. change (Z.to_pos 100) with 100%positive.
  destruct p as [p|], e as [e|]; cbn -[Z.mul Z.add Z.sub]; lia.
Qed.

(** X22: the priority score of a denial never goes down when the denial
    amount or the recovery probability goes up or the effort score goes
    down, and a denial without analysis is scored as one with probability
    0.50 and effort 5. *)
Theorem priority_score_monotone (a a' p p' e e' : Z) :
  a <= a' -> p <= p' -> e' <= e ->
  (priority_score a (Some p) (Some e) <= priority_score a' (Some p') (Some e'))%Q /\
  (priority_score a None None == priority_score a (Some 50%Z) (Some 5%Z))%Q.
Proof.
  intros Ha Hp He. rewrite !priority_score_closed. split.
  - unfold Qle. simpl Qnum. simpl Qden. simpl default. lia.
  - reflexivity.
Qed.

Lemma priority_score_monotone_witness :
  (priority_score 12500000 (Some 50%Z) (Some 5%Z)
   <= priority_score 12500000 (Some 80%Z) (Some 2%Z))%Q /\
  (priority_score 12500000 None None
   == priority_score 12500000 (Some 50%Z) (Some 5%Z))%Q.
Proof. apply priority_score_monotone; lia. Defined.

(** ** Missing references *)



(** ** Submission and full payment *)

(** X24: an appeal inserted in status submitted puts its claim into
    status appealed whatever the claim's status was, recovered and
    written_off included, and leaves the three amounts of the claim
    unchanged. *)
Theorem submitted_appeal_marks_claim (d : db) (id : uuid) (row : appeal)
    (now : timestamp) (d' : db) :
  exec d (InsertAppeal id row) now = Ok d' ->
  appeal_status row = submitted ->
  exists c c',
    claims d !! appeal_claim_id row = Some c /\
    claims d' !! appeal_claim_id row = Some c' /\
    claim_status c' = cs_appealed /\
    claimed_amount c' = claimed_amount c /\ approved_amount c' = approved_amount c /\
    paid_amount c' = paid_amount c.
Proof.
  intros H Hs. unfold exec, insert_appeal in H. ok_inv H.
  unfold appeals_foreign_keys, references in Hok1. ok_inv Hok1.
  match goal with
  | Hfk : bool_decide (is_Some (claims _ !! _)) = true |- _ =>
      apply bool_decide_eq_true in Hfk as [c L]
  end.
  rewrite auto_update_claim_status_on_appeal_one, Hs in H.
  change (bool_decide (submitted = submitted) && null_or_distinct (old_status None) submitted)
    with true in H. cbv iota in H.
  pose proof (update_claims_lookup _ _ _ _ _ _ c H L) as L'. cbv beta iota in L'.
  destruct (status_timestamp_fields now c (set_claim_status cs_appealed c))
    as (F1 & F2 & F3 & F4 & _).
  exists c. eexists. split; [exact L|]. split; [exact L'|]. auto.
Qed.

Lemma submitted_appeal_marks_claim_witness :
  exists c',
    claims (run (db_with_claim recovered_claim)
              (InsertAppeal 10%N (appeal_of submitted None)) 9) !! 1%N = Some c' /\
    claim_status c' = cs_appealed /\ paid_amount c' = 12500000.
Proof.
  assert (E : exec (db_with_claim recovered_claim)
                (InsertAppeal 10%N (appeal_of submitted None)) 9
              = Ok (run (db_with_claim recovered_claim)
                      (InsertAppeal 10%N (appeal_of submitted None)) 9))
    by (vm_compute; reflexivity).
  destruct (submitted_appeal_marks_claim _ _ _ _ _ E eq_refl)
    as (c & c' & L & L' & Es & _ & _ & Ep).
  change (claims (db_with_claim recovered_claim) !! appeal_claim_id (appeal_of submitted None))
    with (Some recovered_claim) in L.
  injection L as <-. exists c'. split; [exact L'|]. split; [exact Es|exact Ep].
Defined.



